(** * Threat_Detection_logic: the key-based column merge of [s1.py]

    A shallow embedding of [Pyhton scripts/s1.py] (a VLOOKUP-like merge of
    one workbook sheet into another, written with pandas) and the theorems
    that settle the specification's claims about it.

    What is modelled, and how:
    - a Python [str] is a [string]; [str.strip] and [str.casefold] are
      modelled on the ASCII characters (bytes from 128 up are kept as they
      are: the model is exact for ASCII text);
    - a cell is a [Value]: a string, a non-null number (kept abstract, with
      Python's [str] on it as a parameter), the float [NaN] that
      [pd.read_excel] delivers for an empty cell, or [pd.NA], which line 77
      writes;
    - [Series.astype(str)] is the one of pandas 1.x and 2.x, for which the
      script was written: it renders [NaN] as the text [nan];
    - a [DataFrame] is column-major, as in pandas: a [RangeIndex] length
      and the named columns in order;
    - [main] mutates the two frames it has read, calls [sys.exit] and can
      raise: it is written in a state-and-exception monad over the pair of
      frames. Lines 40-56 (argument parsing, reading the two sheets) supply
      its inputs; lines 92-116 hand [df_b] to the workbook writer;
    - [pick_engine] works on the final component of the path, with
      [PurePath.suffix] as pathlib computes it;
    - a workbook is the list of its sheets, each a name and a frame;
      [write_output] gives the sheets that lines 95-114 hand to the
      writer, in order. The file system itself is not modelled. *)

From Stdlib Require Import List String Ascii Bool Arith ZArith Lia.
From Stdlib Require Import DecimalString Permutation Sorted.
Import ListNotations.
Open Scope string_scope.

(* ================================================================== *)
(** * Python strings *)

(** [str.isspace] on one ASCII character: TAB, LF, VT, FF, CR, the four
    separators FS, GS, RS, US, and the space. *)
Definition is_space (c : ascii) : bool :=
  let n := nat_of_ascii c in
  (((9 <=? n) && (n <=? 13)) || ((28 <=? n) && (n <=? 32)))%nat.

(** [str.lstrip()] *)
Fixpoint lstrip (s : string) : string :=
  match s with
  | EmptyString => EmptyString
  | String c t => if is_space c then lstrip t else s
  end.

(** [str.rstrip()]: a character is dropped when it is white and nothing
    after it survives. *)
Fixpoint rstrip (s : string) : string :=
  match s with
  | EmptyString => EmptyString
  | String c t =>
      match rstrip t with
      | EmptyString => if is_space c then EmptyString else String c EmptyString
      | r => String c r
      end
  end.

(** [str.strip()] *)
Definition strip (s : string) : string := rstrip (lstrip s).

Definition casefold_char (c : ascii) : ascii :=
  let n := nat_of_ascii c in
  if ((65 <=? n) && (n <=? 90))%nat then ascii_of_nat (n + 32) else c.

(** [str.casefold()] *)
Fixpoint casefold (s : string) : string :=
  match s with
  | EmptyString => EmptyString
  | String c t => String (casefold_char c) (casefold t)
  end.

(** Every character of the string is white space. *)
Fixpoint all_space (s : string) : bool :=
  match s with
  | EmptyString => true
  | String c t => is_space c && all_space t
  end.

(** No character of the string is white space. *)
Fixpoint no_space (s : string) : bool :=
  match s with
  | EmptyString => true
  | String c t => negb (is_space c) && no_space t
  end.

(** The string is empty or starts with a character that is not white. *)
Definition starts_clean (s : string) : bool :=
  match s with
  | EmptyString => true
  | String c _ => negb (is_space c)
  end.

(** Python's [str] on an integer, the instance of the numeric parameter
    used in the examples. *)
Definition str_int (z : Z) : string := NilEmpty.string_of_int (Z.to_int z).

(* ================================================================== *)
(** * Sorting the group keys *)

(** [groupby] sorts the group keys ([sort=True]); Python orders strings by
    code point. *)
Fixpoint insert_sorted (k : string) (l : list string) : list string :=
  match l with
  | [] => [k]
  | h :: t => if String.leb k h then k :: l else h :: insert_sorted k t
  end.

Fixpoint sort_keys (l : list string) : list string :=
  match l with
  | [] => []
  | h :: t => insert_sorted h (sort_keys t)
  end.

(* ================================================================== *)
(** * Python values of the command line and the exceptions *)

Inductive PyVal : Type :=
  | PStr (s : string)
  | PInt (z : Z)
  | PBool (b : bool)
  | PObj (name : string).   (* a module, function or frame: no arithmetic *)

(** [argparse.Namespace]: the attributes that [parse_args] has set. *)
Definition Namespace : Type := list (string * PyVal).

Inductive PyExc : Type :=
  | SystemExit (msg : string)
  | AttributeError (attr : string)
  | NameError (name : string)
  | KeyError (col : string)
  | TypeError.

Inductive Res (A : Type) : Type :=
  | Ok (a : A)
  | Raise (e : PyExc).
Arguments Ok {A} a.
Arguments Raise {A} e.

(** What the command line gives: the options of lines 24-38. A sheet
    selector that is not given is the default [0]. *)
Record Argv : Type := mkArgv {
  file_a : string;
  sheet_a : option string;
  key_a : string;
  source_a : string;
  file_b : string;
  sheet_b : option string;
  key_b : string;
  target_b : string;
  output : string;
  only_fill_empty : bool;
  copy_all_sheets : bool
}.

Definition sheet_val (s : option string) : PyVal :=
  match s with
  | Some n => PStr n
  | None => PInt 0
  end.

(** [parser.parse_args()]: one attribute per [add_argument], named by the
    option with its dashes turned into underscores. *)
Definition parse_args (argv : Argv) : Namespace :=
  [ ("file_a", PStr (file_a argv));
    ("sheet_a", sheet_val (sheet_a argv));
    ("key_a", PStr (key_a argv));
    ("source_a", PStr (source_a argv));
    ("file_b", PStr (file_b argv));
    ("sheet_b", sheet_val (sheet_b argv));
    ("key_b", PStr (key_b argv));
    ("target_b", PStr (target_b argv));
    ("output", PStr (output argv));
    ("only_fill_empty", PBool (only_fill_empty argv));
    ("copy_all_sheets", PBool (copy_all_sheets argv)) ].

(** The names bound where line 79 is evaluated: the locals of [main] and
    the globals of the module. *)
Definition bound_names : list string :=
  [ "parser"; "args"; "file_a"; "file_b"; "out_path"; "eng_a"; "eng_b";
    "df_a"; "df_b"; "col"; "label"; "df"; "mapping"; "key_b_norm";
    "matched_values";
    "argparse"; "Path"; "pd"; "sys"; "pick_engine"; "normalize_key"; "main" ].

Definition py_int (v : PyVal) : option Z :=
  match v with
  | PInt z => Some z
  | PBool b => Some (if b then 1 else 0)%Z
  | _ => None
  end.

(** The message of line 63 *)
Definition column_error (col label : string) : string :=
  "ERROR: Column '" ++ col ++ "' (from " ++ label
  ++ ") not found in its sheet.".

(** [bool(v)] *)
Definition truthy (v : PyVal) : bool :=
  match v with
  | PStr s => negb (String.eqb s EmptyString)
  | PInt z => negb (Z.eqb z 0)
  | PBool b => b
  | PObj _ => true
  end.

Fixpoint assoc {A : Type} (k : string) (l : list (string * A)) : option A :=
  match l with
  | [] => None
  | (k', a) :: t => if String.eqb k' k then Some a else assoc k t
  end.

(* ================================================================== *)
(** * Cells, series and frames *)

Section Model.

(** The non-null numbers of a sheet and Python's [str] on them. *)
Variable num : Type.
Variable str_num : num -> string.

Inductive Value : Type :=
  | VStr (s : string)
  | VNum (n : num)
  | VNaN            (* an empty cell, as [read_excel] delivers it *)
  | VNA.            (* [pd.NA] *)

Definition Series : Type := list Value.

(** [Series.isna()] and [Series.notna()], cell by cell *)
Definition isna (v : Value) : bool :=
  match v with
  | VNaN | VNA => true
  | _ => false
  end.

Definition notna (v : Value) : bool := negb (isna v).

(** [Series.astype(str)], cell by cell *)
Definition astype_str (v : Value) : string :=
  match v with
  | VStr s => s
  | VNum n => str_num n
  | VNaN => "nan"
  | VNA => "<NA>"
  end.

(** The normalized key of one cell. *)
Definition normalize_cell (v : Value) : string :=
  casefold (strip (astype_str v)).

(** [normalize_key] (lines 15-17):
    [series.astype(str).str.strip().str.casefold()] *)
Definition normalize_key (series : Series) : list string :=
  map normalize_cell series.

(** A series indexed by strings, as [groupby(...).first()] returns it. *)
Definition Mapping : Type := list (string * Value).

(** The cells of the rows whose group key is [k], in row order. *)
Definition group (keys : list string) (vals : Series) (k : string) : Series :=
  map snd (filter (fun kv => String.eqb (fst kv) k) (combine keys vals)).

(** [GroupBy.first()] on one group: its first non-null cell, [NaN] when it
    has none. *)
Definition first (g : Series) : Value :=
  match find notna g with
  | Some v => v
  | None => VNaN
  end.

(** [df.groupby(key)[col].first()]: one entry per distinct key, the keys
    sorted. *)
Definition groupby_first (keys : list string) (vals : Series) : Mapping :=
  map (fun k => (k, first (group keys vals k)))
      (sort_keys (nodup string_dec keys)).

(** [Series.map(mapping)]: a key that is not in the index gives [NaN]. *)
Definition series_map (mapping : Mapping) (keys : list string) : Series :=
  map (fun k => match assoc k mapping with
                | Some v => v
                | None => VNaN
                end) keys.

Record DataFrame : Type := mkDF {
  nrows : nat;                             (* [len(df)] *)
  data : list (string * Series)            (* the columns, in order *)
}.

(** [df.columns] *)
Definition columns (df : DataFrame) : list string := map fst (data df).

(** [col in df.columns] *)
Definition has_column (col : string) (df : DataFrame) : bool :=
  existsb (String.eqb col) (columns df).

(** [df[col]], when the column is there *)
Definition getitem (df : DataFrame) (col : string) : option Series :=
  assoc col (data df).

(** [df[col] = series]: the column is replaced where it stands, or added
    after the last one. *)
Definition setitem (df : DataFrame) (col : string) (s : Series) : DataFrame :=
  if has_column col df
  then mkDF (nrows df)
            (map (fun p => if String.eqb (fst p) col then (col, s) else p)
                 (data df))
  else mkDF (nrows df) (data df ++ [(col, s)]).

(** Every column has one cell per row. *)
Definition well_formed (df : DataFrame) : Prop :=
  Forall (fun p => List.length (snd p) = nrows df) (data df).

(** The cell of row [i] in column [col]. *)
Definition cell (df : DataFrame) (col : string) (i : nat) : option Value :=
  match getitem df col with
  | Some s => nth_error s i
  | None => None
  end.

(** [is_blank] of line 81:
    [isna() | (astype(str).str.strip() == EmptyString)] *)
Definition is_blank (v : Value) : bool :=
  isna v || String.eqb (strip (astype_str v)) EmptyString.

(** [df.loc[mask, col] = new.loc[mask]] on the column's cells: the rows of
    the mask take the new cell, the others keep theirs. *)
Fixpoint loc_assign (mask : list bool) (old new : Series) : Series :=
  match mask, old, new with
  | m :: ms, o :: os, n :: ns => (if m then n else o) :: loc_assign ms os ns
  | _, _, _ => old
  end.

(** Row [i] is the first row of the source whose group key is [k] and
    whose cell is not null, and [v] is that cell. *)
Definition first_non_null (keys : list string) (vals : Series)
  (k : string) (i : nat) (v : Value) : Prop :=
  nth_error keys i = Some k /\
  nth_error vals i = Some v /\
  notna v = true /\
  forall j v', j < i -> nth_error keys j = Some k ->
               nth_error vals j = Some v' -> notna v' = false.

(** [matched_values.notna().sum()] *)
Definition count_notna (s : Series) : nat := List.length (filter notna s).

Record MatchStats : Type := mkStats {
  matched : nat;
  total : nat
}.

(* ------------------------------------------------------------------ *)
(** ** The state of [main] and its monad *)

(** The two frames that lines 55-56 have read. *)
Record Mem : Type := mkMem {
  df_a : DataFrame;
  df_b : DataFrame
}.

Definition M (A : Type) : Type := Mem -> Mem * Res A.

Definition ret {A : Type} (a : A) : M A := fun m => (m, Ok a).

Definition bind {A B : Type} (c : M A) (k : A -> M B) : M B :=
  fun m =>
    match c m with
    | (m', Ok a) => k a m'
    | (m', Raise e) => (m', Raise e)
    end.

Definition raise {A : Type} (e : PyExc) : M A := fun m => (m, Raise e).

Notation "x <- c ;; k" := (bind c (fun x => k))
  (at level 61, c at next level, right associativity).
Notation "c ;;; k" := (bind c (fun _ => k))
  (at level 61, right associativity).

(** [sys.exit(msg)] *)
Definition sys_exit {A : Type} (msg : string) : M A := raise (SystemExit msg).

Inductive Which : Type := FrameA | FrameB.

Definition frame (w : Which) : M DataFrame :=
  fun m => (m, Ok (match w with FrameA => df_a m | FrameB => df_b m end)).

Definition store (w : Which) (df : DataFrame) : M unit :=
  fun m => (match w with
            | FrameA => mkMem df (df_b m)
            | FrameB => mkMem (df_a m) df
            end, Ok tt).

Definition get_column (w : Which) (col : string) : M Series :=
  df <- frame w ;;
  match getitem df col with
  | Some s => ret s
  | None => raise (KeyError col)
  end.

Definition set_column (w : Which) (col : string) (s : Series) : M unit :=
  df <- frame w ;;
  store w (setitem df col s).

(** [args.name] *)
Definition getattr (args : Namespace) (name : string) : M PyVal :=
  match assoc name args with
  | Some v => ret v
  | None => raise (AttributeError name)
  end.

(** [args.name] where a column name is expected *)
Definition attr_str (args : Namespace) (name : string) : M string :=
  v <- getattr args name ;;
  match v with
  | PStr s => ret s
  | _ => raise TypeError
  end.

(** Reading a variable: a name that is bound nowhere raises. *)
Definition load_name (name : string) : M PyVal :=
  if existsb (String.eqb name) bound_names
  then ret (PObj name)
  else raise (NameError name).

(** [x - y] *)
Definition py_sub (x y : PyVal) : M PyVal :=
  match py_int x, py_int y with
  | Some a, Some b => ret (PInt (a - b))
  | _, _ => raise TypeError
  end.

(* ------------------------------------------------------------------ *)
(** ** The steps of [main] *)

(** Lines 58-63: the three required columns, checked in turn. *)
Fixpoint validate (checks : list (string * string * Which)) : M unit :=
  match checks with
  | [] => ret tt
  | (col, label, w) :: rest =>
      df <- frame w ;;
      if has_column col df
      then validate rest
      else sys_exit (column_error col label)
  end.

(** Lines 65-68: the normalized keys are stored in [df_a] as the column
    [_key_norm_], and the source column is grouped by it. *)
Definition build_mapping (args : Namespace) : M Mapping :=
  key_a <- attr_str args "key_a" ;;
  keys <- get_column FrameA key_a ;;
  let key_norm := normalize_key keys in
  set_column FrameA "_key_norm_" (map VStr key_norm) ;;;
  source_a <- attr_str args "source_a" ;;
  vals <- get_column FrameA source_a ;;
  ret (groupby_first key_norm vals).

(** Lines 70-72 *)
Definition lookup_keys (args : Namespace) (mapping : Mapping) : M Series :=
  key_b <- attr_str args "key_b" ;;
  keys <- get_column FrameB key_b ;;
  ret (series_map mapping (normalize_key keys)).

(** Lines 74-77: a target column that is missing is created, all [pd.NA]. *)
Definition ensure_target (args : Namespace) : M unit :=
  target_b <- attr_str args "target_b" ;;
  df <- frame FrameB ;;
  if has_column target_b df
  then ret tt
  else set_column FrameB target_b (repeat VNA (nrows df)).

(** Line 79, the condition [args.only-fill-empty]: Python reads it as the
    subtraction [(args.only - fill) - empty], and evaluates the attribute
    [args.only] first. *)
Definition fill_condition (args : Namespace) : M bool :=
  only <- getattr args "only" ;;
  fill <- load_name "fill" ;;
  d <- py_sub only fill ;;
  empty <- load_name "empty" ;;
  r <- py_sub d empty ;;
  ret (truthy r).

(** Lines 80-82 *)
Definition fill_blank_cells (args : Namespace) (matched_values : Series)
  : M unit :=
  target_b <- attr_str args "target_b" ;;
  cur <- get_column FrameB target_b ;;
  let blank := map is_blank cur in
  set_column FrameB target_b (loc_assign blank cur matched_values).

(** Lines 83-85 *)
Definition overwrite_cells (args : Namespace) (matched_values : Series)
  : M unit :=
  target_b <- attr_str args "target_b" ;;
  set_column FrameB target_b matched_values.

(** Lines 87-89 *)
Definition match_statistics (matched_values : Series) : M MatchStats :=
  df <- frame FrameB ;;
  ret (mkStats (count_notna matched_values) (nrows df)).

(** [main], lines 58-90, on the frames read by lines 55-56. *)
Definition main (argv : Argv) : M MatchStats :=
  let args := parse_args argv in
  key_a <- attr_str args "key_a" ;;
  source_a <- attr_str args "source_a" ;;
  key_b <- attr_str args "key_b" ;;
  validate [ (key_a, "key-a", FrameA);
             (source_a, "source-a", FrameA);
             (key_b, "key-b", FrameB) ] ;;;
  mapping <- build_mapping args ;;
  matched_values <- lookup_keys args mapping ;;
  ensure_target args ;;;
  only_fill <- fill_condition args ;;
  (if only_fill
   then fill_blank_cells args matched_values
   else overwrite_cells args matched_values) ;;;
  match_statistics matched_values.

End Model.

Arguments VStr {num} s.
Arguments VNum {num} n.
Arguments VNaN {num}.
Arguments VNA {num}.
Arguments isna {num} v.
Arguments notna {num} v.
Arguments astype_str {num} str_num v.
Arguments normalize_cell {num} str_num v.
Arguments normalize_key {num} str_num series.
Arguments group {num} keys vals k.
Arguments first {num} g.
Arguments groupby_first {num} keys vals.
Arguments series_map {num} mapping keys.
Arguments mkDF {num} nrows data.
Arguments nrows {num} d.
Arguments data {num} d.
Arguments columns {num} df.
Arguments has_column {num} col df.
Arguments getitem {num} df col.
Arguments setitem {num} df col s.
Arguments well_formed {num} df.
Arguments cell {num} df col i.
Arguments is_blank {num} str_num v.
Arguments loc_assign {num} mask old new.
Arguments first_non_null {num} keys vals k i v.
Arguments count_notna {num} s.
Arguments mkMem {num} df_a df_b.
Arguments df_a {num} m.
Arguments df_b {num} m.
Arguments ret {num A} a _.
Arguments bind {num A B} c k _.
Arguments raise {num A} e _.
Arguments sys_exit {num A} msg _.
Arguments frame {num} w _.
Arguments store {num} w df _.
Arguments get_column {num} w col _.
Arguments set_column {num} w col s _.
Arguments getattr {num} args name _.
Arguments attr_str {num} args name _.
Arguments load_name {num} name _.
Arguments py_sub {num} x y _.
Arguments validate {num} checks _.
Arguments build_mapping {num} str_num args _.
Arguments lookup_keys {num} str_num args mapping _.
Arguments ensure_target {num} args _.
Arguments fill_condition {num} args _.
Arguments fill_blank_cells {num} str_num args matched_values _.
Arguments overwrite_cells {num} args matched_values _.
Arguments match_statistics {num} matched_values _.
Arguments main {num} str_num argv _.

(* ================================================================== *)
(** * The sheets of the examples *)

Definition int (z : Z) : Value Z := VNum z.

(** The source sheet of the specification's scenario. *)
Definition source_sheet : DataFrame Z :=
  mkDF 3 [ ("Name", [VStr "Alice"; VStr " bob "; VStr "CARL"]);
           ("Score", [int 10; int 20; int 30]) ].

(** Its destination sheet, the target column partly filled. *)
Definition dest_sheet : DataFrame Z :=
  mkDF 3 [ ("Who", [VStr "alice"; VStr "Bob"; VStr "dave"]);
           ("Points", [VNaN; int 5; int 9]) ].

(** A destination sheet that has no target column yet. *)
Definition dest_no_target : DataFrame Z :=
  mkDF 3 [ ("Who", [VStr "alice"; VStr "Bob"; VStr "dave"]) ].

(** A source whose key is given twice, the first time without a value,
    and whose last key cell is empty. *)
Definition source_dups : DataFrame Z :=
  mkDF 4 [ ("Name", [VStr "X"; VStr " x"; VStr "A"; VNaN]);
           ("Score", [VNaN; int 7; int 1; int 4]) ].

(** The cells that lines 65-72 look up for the rows of [dest_sheet] in
    [source_sheet]. *)
Definition looked_up : Series Z :=
  series_map
    (groupby_first
       (normalize_key str_int [VStr "Alice"; VStr " bob "; VStr "CARL"])
       [int 10; int 20; int 30])
    (normalize_key str_int [VStr "alice"; VStr "Bob"; VStr "dave"]).

Definition argv_overwrite : Argv :=
  mkArgv "a.xlsx" None "Name" "Score" "b.xlsx" None "Who" "Points"
         "out.xlsx" false false.

Definition argv_fill_empty : Argv :=
  mkArgv "a.xlsx" None "Name" "Score" "b.xlsx" None "Who" "Points"
         "out.xlsx" true false.

(** A source whose cells are keys of its own, and a command line that
    names the destination key column as the target column. *)
Definition source_chain : DataFrame Z :=
  mkDF 2 [ ("Name", [VStr "a"; VStr "b"]);
           ("Score", [VStr "b"; VStr "c"]) ].

Definition dest_keys : DataFrame Z :=
  mkDF 1 [ ("Who", [VStr "a"]) ].

Definition argv_onto_key : Argv :=
  mkArgv "a.xlsx" None "Name" "Score" "b.xlsx" None "Who" "Who"
         "out.xlsx" false false.

(** A command line that names a source key column the sheet has not. *)
Definition argv_bad_key : Argv :=
  mkArgv "a.xlsx" None "Id" "Score" "b.xlsx" None "Who" "Points"
         "out.xlsx" false false.

(* ================================================================== *)
(** * The engine of a workbook *)

(** [str.lower()]; on ASCII characters it is the map of [casefold]. *)
Definition lower (s : string) : string := casefold s.

(** [name[name.rfind('.'):]], when the name has a dot. *)
Fixpoint last_dot_suffix (name : string) : option string :=
  match name with
  | EmptyString => None
  | String c t =>
      match last_dot_suffix t with
      | Some suf => Some suf
      | None => if Ascii.eqb c "." then Some name else None
      end
  end.

(** [PurePath.suffix] on the final component of a path, as pathlib has it
    up to Python 3.12: with [i = name.rfind('.')], the text from the dot
    on when [0 < i < len(name) - 1], and the empty string otherwise. *)
Definition suffix (name : string) : string :=
  match name with
  | EmptyString => EmptyString
  | String _ t =>
      match last_dot_suffix t with
      | Some (String d (String c r)) => String d (String c r)
      | _ => EmptyString
      end
  end.

(** [pick_engine] (lines 6-13), on the final component of the path. *)
Definition pick_engine (name : string) : option string :=
  let suffix := lower (suffix name) in
  if String.eqb suffix ".xlsx" then Some "openpyxl"
  else if String.eqb suffix ".xls" then Some "xlrd"
  else None.

(* ================================================================== *)
(** * Reading the sheets and writing the output *)

(** [str(v)] for the values a sheet selector can be. *)
Definition py_str (v : PyVal) : option string :=
  match v with
  | PStr s => Some s
  | PInt z => Some (str_int z)
  | PBool true => Some "True"
  | PBool false => Some "False"
  | PObj _ => None
  end.

(** [l[z]]: a negative index counts from the end; [None] stands for the
    [IndexError]. *)
Definition py_index {A : Type} (l : list A) (z : Z) : option A :=
  let n := Z.of_nat (List.length l) in
  if ((0 <=? z) && (z <? n))%Z then nth_error l (Z.to_nat z)
  else if ((- n <=? z) && (z <? 0))%Z then nth_error l (Z.to_nat (n + z))
  else None.

(** Lines 100-101, the test that sheet [sname] is the one to replace:
    [str(args.sheet_b) == sname or (isinstance(args.sheet_b, int) and
    sname == xls_b.sheet_names[int(args.sheet_b)])]. [None] stands for an
    exception. *)
Definition replaces_sheet (sheet_b : PyVal) (sheet_names : list string)
  (sname : string) : option bool :=
  match py_str sheet_b with
  | None => None
  | Some s =>
      if String.eqb s sname then Some true
      else match py_int sheet_b with
           | None => Some false                 (* not an [int] *)
           | Some z =>
               match py_index sheet_names z with
               | Some n => Some (String.eqb sname n)
               | None => None
               end
           end
  end.

(** Lines 112-113: a frame that [read_excel] has made carries no
    [sheet_name] in its [attrs], so the name is the selector when it is a
    string and [Sheet1] otherwise. *)
Definition single_sheet_name (sheet_b : PyVal) : string :=
  match sheet_b with
  | PStr s => s
  | _ => "Sheet1"
  end.

Section Output.

Variable num : Type.

(** A workbook: its sheets in order, each a name and a frame. *)
Definition Workbook : Type := list (string * DataFrame num).

(** [xls.sheet_names] *)
Definition sheet_names (wb : Workbook) : list string := map fst wb.

(** [pd.read_excel(file, sheet_name=sel)] on the workbook of the file: a
    string selects by name, an integer by position. *)
Definition read_excel (wb : Workbook) (sel : PyVal) : option (DataFrame num) :=
  match sel with
  | PStr s => assoc s wb
  | PInt z => option_map snd (py_index wb z)
  | _ => None
  end.

(** Lines 99-107, the loop over the sheets of file B: what is handed to
    the writer, sheet by sheet. The workbook of file B is the one that
    line 56 has read (the output path is another file). *)
Fixpoint copy_sheets (sheet_b : PyVal) (wb : Workbook)
  (merged : DataFrame num) (snames : list string)
  : option (list (string * DataFrame num)) :=
  match snames with
  | [] => Some []
  | sname :: rest =>
      match replaces_sheet sheet_b (sheet_names wb) sname with
      | None => None
      | Some true =>
          option_map (cons (sname, merged)) (copy_sheets sheet_b wb merged rest)
      | Some false =>
          match read_excel wb (PStr sname) with
          | Some df_tmp =>
              option_map (cons (sname, df_tmp))
                         (copy_sheets sheet_b wb merged rest)
          | None => None
          end
      end
  end.

(** Lines 95-114: the sheets written to the output workbook. *)
Definition write_output (args : Namespace) (wb : Workbook)
  (merged : DataFrame num) : option (list (string * DataFrame num)) :=
  match assoc "copy_all_sheets" args, assoc "sheet_b" args with
  | Some copy_all, Some sheet_b =>
      if truthy copy_all
      then copy_sheets sheet_b wb merged (sheet_names wb)
      else Some [(single_sheet_name sheet_b, merged)]
  | _, _ => None
  end.

End Output.

Arguments sheet_names {num} wb.
Arguments read_excel {num} wb sel.
Arguments copy_sheets {num} sheet_b wb merged snames.
Arguments write_output {num} args wb merged.

(** A workbook of three sheets, the last one named [0]. *)
Definition three_sheets : Workbook Z :=
  [ ("People", dest_sheet); ("Notes", dest_keys); ("0", dest_no_target) ].

(** A command line that copies all sheets and gives no sheet selector. *)
Definition argv_all_default : Argv :=
  mkArgv "a.xlsx" None "Name" "Score" "b.xlsx" None "Who" "Points"
         "out.xlsx" false true.

(** A source sheet that has a column called [_key_norm_] of its own, and
    a command line that names it as the source column. *)
Definition source_with_scratch : DataFrame Z :=
  mkDF 2 [ ("Name", [VStr "Alice"; VStr " bob "]);
           ("_key_norm_", [int 10; int 20]) ].

Definition argv_scratch_source : Argv :=
  mkArgv "a.xlsx" None "Name" "_key_norm_" "b.xlsx" None "Who" "Points"
         "out.xlsx" false false.

(** A command line that selects the sheet [Notes] and copies all sheets. *)
Definition argv_all_sheets : Argv :=
  mkArgv "a.xlsx" None "Name" "Score" "b.xlsx" (Some "Notes") "Who" "Points"
         "out.xlsx" false true.

(* ================================================================== *)
(** * Stripping and case folding *)

Lemma is_space_casefold_char (c : ascii) :
  is_space (casefold_char c) = is_space c.
Proof.
  destruct c as [[] [] [] [] [] [] [] []]; reflexivity.
Qed.


Lemma casefold_idempotent_char (c : ascii) :
  casefold_char (casefold_char c) = casefold_char c.
Proof.
  destruct c as [[] [] [] [] [] [] [] []]; reflexivity.
Qed.

Lemma lstrip_app_space (ws s : string) :
  all_space ws = true -> lstrip (ws ++ s) = lstrip s.
Proof.
  induction ws as [|c t IH]; simpl; intros H.
  - reflexivity.
  - apply andb_true_iff in H as [Hc Ht]. rewrite Hc. now apply IH.
Qed.

Lemma lstrip_no_space (s : string) : no_space s = true -> lstrip s = s.
Proof.
  destruct s as [|c t]; simpl; intros H.
  - reflexivity.
  - apply andb_true_iff in H as [Hc _].
    apply negb_true_iff in Hc. now rewrite Hc.
Qed.

Lemma rstrip_all_space (ws : string) :
  all_space ws = true -> rstrip ws = EmptyString.
Proof.
  induction ws as [|c t IH]; simpl; intros H.
  - reflexivity.
  - apply andb_true_iff in H as [Hc Ht]. now rewrite (IH Ht), Hc.
Qed.

Lemma rstrip_app_space (s ws : string) :
  all_space ws = true -> rstrip (s ++ ws) = rstrip s.
Proof.
  intros H. induction s as [|c t IH]; simpl.
  - now apply rstrip_all_space.
  - now rewrite IH.
Qed.





(* ================================================================== *)
(** * Sorted keys and association lists *)

Lemma In_insert_sorted (x k : string) (l : list string) :
  In x (insert_sorted k l) <-> x = k \/ In x l.
Proof.
  induction l as [|h t IH]; simpl.
  - intuition.
  - destruct (String.leb k h); simpl; intuition.
Qed.

Lemma In_sort_keys (x : string) (l : list string) :
  In x (sort_keys l) <-> In x l.
Proof.
  induction l as [|h t IH]; simpl.
  - tauto.
  - rewrite In_insert_sorted, IH. intuition.
Qed.



Lemma assoc_tabulate {A : Type} (f : string -> A) (k : string) (l : list string) :
  In k l -> assoc k (map (fun x => (x, f x)) l) = Some (f k).
Proof.
  induction l as [|h t IH]; simpl; intros H.
  - contradiction.
  - destruct (String.eqb h k) eqn:E.
    + apply String.eqb_eq in E. now subst.
    + apply String.eqb_neq in E. destruct H as [H|H]; [contradiction|auto].
Qed.


Lemma assoc_app_other {A : Type} (k c : string) (a : A) (l : list (string * A)) :
  k <> c -> assoc k (l ++ [(c, a)]) = assoc k l.
Proof.
  intros Hk. induction l as [|[h b] t IH]; simpl.
  - destruct (String.eqb c k) eqn:E; [|reflexivity].
    apply String.eqb_eq in E. congruence.
  - now rewrite IH.
Qed.

Lemma assoc_replace_other {A : Type} (k c : string) (a : A) (l : list (string * A)) :
  k <> c ->
  assoc k (map (fun p => if String.eqb (fst p) c then (c, a) else p) l)
  = assoc k l.
Proof.
  intros Hk. induction l as [|[h b] t IH]; simpl.
  - reflexivity.
  - destruct (String.eqb h c) eqn:E; simpl.
    + apply String.eqb_eq in E. subst h.
      destruct (String.eqb c k) eqn:E'.
      * apply String.eqb_eq in E'. congruence.
      * exact IH.
    + now rewrite IH.
Qed.

Lemma assoc_replace_same {A : Type} (c : string) (a : A) (l : list (string * A)) :
  existsb (String.eqb c) (map fst l) = true ->
  assoc c (map (fun p => if String.eqb (fst p) c then (c, a) else p) l)
  = Some a.
Proof.
  induction l as [|[h b] t IH]; simpl; intros H.
  - discriminate.
  - rewrite (String.eqb_sym c h) in H.
    destruct (String.eqb h c) eqn:E; simpl.
    + now rewrite String.eqb_refl.
    + rewrite E. now apply IH.
Qed.

Lemma assoc_app_new {A : Type} (c : string) (a : A) (l : list (string * A)) :
  existsb (String.eqb c) (map fst l) = false ->
  assoc c (l ++ [(c, a)]) = Some a.
Proof.
  induction l as [|[h b] t IH]; simpl; intros H.
  - now rewrite String.eqb_refl.
  - rewrite (String.eqb_sym c h) in H.
    apply orb_false_iff in H as [E H]. rewrite E. now apply IH.
Qed.

Lemma assoc_some_iff {A : Type} (c : string) (l : list (string * A)) :
  existsb (String.eqb c) (map fst l) = true <-> exists a, assoc c l = Some a.
Proof.
  induction l as [|[h b] t IH]; simpl.
  - split; [discriminate | intros [a H]; discriminate].
  - rewrite (String.eqb_sym c h).
    destruct (String.eqb h c); simpl.
    + split; eauto.
    + exact IH.
Qed.

(* ================================================================== *)
(** * Frames, the lookup index and the steps of [main] *)

Section Claims.

Variable num : Type.
Variable str_num : num -> string.

Implicit Types (df : DataFrame num) (mem : Mem num) (v : Value num).
Implicit Types (keys : list string) (vals s : Series num).

(* ------------------------------------------------------------------ *)
(** ** Columns *)

Lemma has_column_getitem df col :
  has_column col df = true <-> exists s, getitem df col = Some s.
Proof. apply assoc_some_iff. Qed.

Lemma getitem_setitem_other df c col s :
  col <> c -> getitem (setitem df c s) col = getitem df col.
Proof.
  intros H. unfold getitem, setitem.
  destruct (has_column c df); simpl.
  - now apply assoc_replace_other.
  - now apply assoc_app_other.
Qed.

Lemma getitem_setitem_same df c s : getitem (setitem df c s) c = Some s.
Proof.
  unfold getitem, setitem.
  destruct (has_column c df) eqn:E; simpl.
  - now apply assoc_replace_same.
  - now apply assoc_app_new.
Qed.

Lemma nrows_setitem df c s : nrows (setitem df c s) = nrows df.
Proof. unfold setitem. now destruct (has_column c df). Qed.

Lemma cell_setitem_other df c col s i :
  col <> c -> cell (setitem df c s) col i = cell df col i.
Proof. intros H. unfold cell. now rewrite getitem_setitem_other. Qed.

(** Setting a column keeps the order of the columns; a new one comes
    last. *)
Lemma columns_setitem df c s :
  columns (setitem df c s)
  = if has_column c df then columns df else (columns df ++ [c])%list.
Proof.
  unfold setitem, columns.
  destruct (has_column c df); simpl.
  - rewrite map_map. apply map_ext_in. intros [h b] _. simpl.
    destruct (String.eqb h c) eqn:E; [|reflexivity].
    apply String.eqb_eq in E. now subst.
  - now rewrite map_app.
Qed.

Lemma well_formed_getitem df c s :
  well_formed df -> getitem df c = Some s -> List.length s = nrows df.
Proof.
  unfold well_formed, getitem. generalize (nrows df) as n.
  intros n W. induction W as [|[h b] t Hb _ IH]; simpl.
  - discriminate.
  - destruct (String.eqb h c); [now intros [= <-] | exact IH].
Qed.

Lemma well_formed_setitem df c s :
  well_formed df -> List.length s = nrows df ->
  well_formed (setitem df c s).
Proof.
  unfold well_formed, setitem. intros W Hs.
  destruct (has_column c df); simpl.
  - apply Forall_map. eapply Forall_impl; [|exact W].
    intros [h b] Hb. simpl. now destruct (String.eqb h c).
  - apply Forall_app. split; [exact W|]. now constructor.
Qed.

(* ------------------------------------------------------------------ *)
(** ** The lookup index *)


(** The entry of a key that occurs among the group keys is the first
    non-null cell of its group. *)
Lemma assoc_groupby_first keys vals k :
  In k keys ->
  assoc k (groupby_first keys vals) = Some (first (group keys vals k)).
Proof.
  intros H. unfold groupby_first.
  apply (assoc_tabulate (fun k => first (group keys vals k))).
  now apply In_sort_keys, nodup_In.
Qed.


Lemma first_group keys vals k i v :
  first_non_null keys vals k i v -> first (group keys vals k) = v.
Proof.
  unfold first_non_null, first, group.
  revert vals i. induction keys as [|k0 keys IH]; intros vals i (Hk & Hv & Hn & Hfirst).
  - destruct i; discriminate.
  - destruct vals as [|v0 vals]; [destruct i; discriminate|].
    destruct i as [|i]; simpl in Hk, Hv.
    + injection Hk as ->. injection Hv as ->.
      simpl. rewrite String.eqb_refl. simpl. now rewrite Hn.
    + simpl. destruct (String.eqb k0 k) eqn:E; simpl.
      * apply String.eqb_eq in E. subst k0.
        rewrite (Hfirst 0 v0); [|lia|reflexivity|reflexivity].
        apply (IH vals i). repeat split; auto.
        intros j v' Hj. apply (Hfirst (S j)). lia.
      * apply (IH vals i). repeat split; auto.
        intros j v' Hj. apply (Hfirst (S j)). lia.
Qed.

Lemma first_non_null_In keys vals k i v :
  first_non_null keys vals k i v -> In k keys.
Proof. intros (Hk & _). eapply nth_error_In, Hk. Qed.

(** The index holds, for a key, the cell of the first row of that key
    whose cell is not null. *)
Lemma assoc_first_non_null keys vals k i v :
  first_non_null keys vals k i v ->
  assoc k (groupby_first keys vals) = Some v.
Proof.
  intros H. rewrite assoc_groupby_first.
  - f_equal. eapply first_group, H.
  - eapply first_non_null_In, H.
Qed.






Lemma length_series_map (mapping : Mapping num) keys :
  List.length (series_map mapping keys) = List.length keys.
Proof. unfold series_map. apply length_map. Qed.

Lemma length_normalize_key s :
  List.length (normalize_key str_num s) = List.length s.
Proof. unfold normalize_key. apply length_map. Qed.

(* ------------------------------------------------------------------ *)
(** ** Running [main] *)

Lemma bind_ok {A B : Type} (c : M num A) (k : A -> M num B) mem mem' a :
  c mem = (mem', Ok a) -> bind c k mem = k a mem'.
Proof. intros H. unfold bind. now rewrite H. Qed.

Lemma bind_raise {A B : Type} (c : M num A) (k : A -> M num B) mem mem' e :
  c mem = (mem', Raise e) -> bind c k mem = (mem', Raise e).
Proof. intros H. unfold bind. now rewrite H. Qed.

Lemma validate_passes argv mem :
  has_column (key_a argv) (df_a mem) = true ->
  has_column (source_a argv) (df_a mem) = true ->
  has_column (key_b argv) (df_b mem) = true ->
  validate [ (key_a argv, "key-a", FrameA);
             (source_a argv, "source-a", FrameA);
             (key_b argv, "key-b", FrameB) ] mem
  = (mem, Ok tt).
Proof.
  intros Ha Hs Hb. unfold validate, bind, frame, ret.
  now rewrite Ha, Hs, Hb.
Qed.

(** A missing column stops the run at [sys.exit], the memory as it was. *)
Lemma validate_fails argv mem :
  has_column (key_a argv) (df_a mem)
  && has_column (source_a argv) (df_a mem)
  && has_column (key_b argv) (df_b mem) = false ->
  exists msg,
    validate [ (key_a argv, "key-a", FrameA);
               (source_a argv, "source-a", FrameA);
               (key_b argv, "key-b", FrameB) ] mem
    = (mem, Raise (SystemExit msg)).
Proof.
  intros H. unfold validate, bind, frame, ret, sys_exit, raise.
  destruct (has_column (key_a argv) (df_a mem)); [|eauto].
  destruct (has_column (source_a argv) (df_a mem)); [|eauto].
  destruct (has_column (key_b argv) (df_b mem)); [discriminate|eauto].
Qed.

(** Lines 65-68 store the scratch column in [df_a] and return the index
    of the source column as it then is. *)
Lemma build_mapping_runs argv mem (kcol : Series num) vals :
  getitem (df_a mem) (key_a argv) = Some kcol ->
  getitem (setitem (df_a mem) "_key_norm_"
                   (map VStr (normalize_key str_num kcol)))
          (source_a argv) = Some vals ->
  build_mapping str_num (parse_args argv) mem
  = (mkMem (setitem (df_a mem) "_key_norm_"
                    (map VStr (normalize_key str_num kcol)))
           (df_b mem),
     Ok (groupby_first (normalize_key str_num kcol) vals)).
Proof.
  intros Hk Hv.
  unfold build_mapping, bind, attr_str, getattr, get_column, set_column,
    bind, frame, store, ret. simpl.
  rewrite Hk. simpl. rewrite Hv. reflexivity.
Qed.

(** After line 66 the source column can still be read, whatever it is
    called. *)
Lemma source_column_after_scratch df c s :
  has_column c df = true ->
  exists vals, getitem (setitem df "_key_norm_" s) c = Some vals.
Proof.
  intros H. destruct (string_dec c "_key_norm_") as [->|Hne].
  - exists s. apply getitem_setitem_same.
  - apply has_column_getitem in H as [vals H]. exists vals.
    now rewrite getitem_setitem_other.
Qed.

Lemma lookup_keys_runs argv mem (mapping : Mapping num) (kcol : Series num) :
  getitem (df_b mem) (key_b argv) = Some kcol ->
  lookup_keys str_num (parse_args argv) mapping mem
  = (mem, Ok (series_map mapping (normalize_key str_num kcol))).
Proof.
  intros Hk.
  unfold lookup_keys, bind, attr_str, getattr, get_column, bind, frame, ret.
  simpl. rewrite Hk. reflexivity.
Qed.

Lemma ensure_target_runs argv mem :
  ensure_target (parse_args argv) mem
  = (mkMem (df_a mem)
           (if has_column (target_b argv) (df_b mem)
            then df_b mem
            else setitem (df_b mem) (target_b argv)
                         (repeat VNA (nrows (df_b mem)))),
     Ok tt).
Proof.
  unfold ensure_target, bind, attr_str, getattr, set_column, bind, frame,
    store, ret. simpl.
  destruct (has_column (target_b argv) (df_b mem)); [|reflexivity].
  now destruct mem.
Qed.

(** Line 79 raises, whatever the command line and the frames are: the
    namespace has an attribute [only_fill_empty] and none called [only]. *)
Lemma fill_condition_raises argv mem :
  fill_condition (parse_args argv) mem = (mem, Raise (AttributeError "only")).
Proof. reflexivity. Qed.

(** A run whose three columns are there stops at line 79, in a memory
    where [df_a] has the scratch column and [df_b] a target column. *)
Lemma main_reaches_line_79 argv mem :
  has_column (key_a argv) (df_a mem) = true ->
  has_column (source_a argv) (df_a mem) = true ->
  has_column (key_b argv) (df_b mem) = true ->
  exists kcol,
    getitem (df_a mem) (key_a argv) = Some kcol /\
    main str_num argv mem
    = (mkMem (setitem (df_a mem) "_key_norm_"
                      (map VStr (normalize_key str_num kcol)))
             (if has_column (target_b argv) (df_b mem)
              then df_b mem
              else setitem (df_b mem) (target_b argv)
                           (repeat VNA (nrows (df_b mem)))),
       Raise (AttributeError "only")).
Proof.
  intros Ha Hs Hb.
  destruct (proj1 (has_column_getitem _ _) Ha) as [kcol Hk].
  destruct (source_column_after_scratch _ _
              (map VStr (normalize_key str_num kcol)) Hs) as [vals Hv].
  destruct (proj1 (has_column_getitem _ _) Hb) as [keysb Hkb].
  exists kcol. split; [exact Hk|].
  unfold main.
  do 3 (erewrite bind_ok by reflexivity).
  erewrite bind_ok by (now apply validate_passes).
  erewrite bind_ok by (apply (build_mapping_runs argv mem kcol vals Hk Hv)).
  erewrite bind_ok by (apply (lookup_keys_runs argv _ _ keysb); exact Hkb).
  erewrite bind_ok by (apply ensure_target_runs).
  erewrite bind_raise by (apply fill_condition_raises).
  reflexivity.
Qed.

(** A run with a missing column stops at line 63 and changes nothing. *)
Lemma main_stops_at_line_63 argv mem :
  has_column (key_a argv) (df_a mem)
  && has_column (source_a argv) (df_a mem)
  && has_column (key_b argv) (df_b mem) = false ->
  exists msg, main str_num argv mem = (mem, Raise (SystemExit msg)).
Proof.
  intros H. destruct (validate_fails argv mem H) as [msg Hmsg].
  exists msg. unfold main.
  do 3 (erewrite bind_ok by reflexivity).
  erewrite bind_raise by (exact Hmsg).
  reflexivity.
Qed.

(** No run of [main] comes to its statistics: it exits at line 63 or
    raises at line 79. *)
Lemma main_cases argv mem :
  (exists msg, main str_num argv mem = (mem, Raise (SystemExit msg))) \/
  (exists kcol,
     getitem (df_a mem) (key_a argv) = Some kcol /\
     main str_num argv mem
     = (mkMem (setitem (df_a mem) "_key_norm_"
                       (map VStr (normalize_key str_num kcol)))
              (if has_column (target_b argv) (df_b mem)
               then df_b mem
               else setitem (df_b mem) (target_b argv)
                            (repeat VNA (nrows (df_b mem)))),
        Raise (AttributeError "only"))).
Proof.
  destruct (has_column (key_a argv) (df_a mem)) eqn:Ha;
    [destruct (has_column (source_a argv) (df_a mem)) eqn:Hs;
     [destruct (has_column (key_b argv) (df_b mem)) eqn:Hb|]|].
  - right. now apply main_reaches_line_79.
  - left. apply main_stops_at_line_63. now rewrite Ha, Hs, Hb.
  - left. apply main_stops_at_line_63. now rewrite Ha, Hs.
  - left. apply main_stops_at_line_63. now rewrite Ha.
Qed.

(** A destination frame that has the target column comes out of every
    run as it went in, under either policy. *)
Lemma main_keeps_existing_target argv mem :
  has_column (target_b argv) (df_b mem) = true ->
  df_b (fst (main str_num argv mem)) = df_b mem.
Proof.
  intros Ht.
  destruct (main_cases argv mem) as [[msg H]|[kcol [_ H]]];
    rewrite H; simpl; [reflexivity | now rewrite Ht].
Qed.

(** Every run keeps one cell per row in every column of both frames. *)
Lemma main_keeps_well_formed argv mem :
  well_formed (df_a mem) -> well_formed (df_b mem) ->
  well_formed (df_a (fst (main str_num argv mem))) /\
  well_formed (df_b (fst (main str_num argv mem))).
Proof.
  intros Wa Wb.
  destruct (main_cases argv mem) as [[msg H]|[kcol [Hk H]]];
    rewrite H; simpl.
  - now split.
  - split.
    + apply well_formed_setitem; [exact Wa|].
      rewrite length_map, length_normalize_key.
      eapply well_formed_getitem; eauto.
    + destruct (has_column (target_b argv) (df_b mem)); [exact Wb|].
      apply well_formed_setitem; [exact Wb | apply repeat_length].
Qed.

(* ------------------------------------------------------------------ *)
(** ** The two branches after line 79 and the statistics

    No run reaches lines 80-90; these lemmas say what the lines do in a
    memory where they are started. *)

Lemma loc_assign_nth (mask : list bool) (old new : Series num) i m o n :
  nth_error mask i = Some m -> nth_error old i = Some o ->
  nth_error new i = Some n ->
  nth_error (loc_assign mask old new) i = Some (if m then n else o).
Proof.
  revert old new i.
  induction mask as [|m0 mask IH]; intros [|o0 old] [|n0 new] [|i];
    simpl; try discriminate.
  - now intros [= ->] [= ->] [= ->].
  - apply IH.
Qed.

Lemma length_loc_assign (mask : list bool) (old new : Series num) :
  List.length (loc_assign mask old new) = List.length old.
Proof.
  revert old new.
  induction mask as [|m0 mask IH]; intros [|o0 old] [|n0 new];
    simpl; auto.
Qed.

Lemma fill_blank_cells_runs argv mem (cur matched_values : Series num) :
  getitem (df_b mem) (target_b argv) = Some cur ->
  fill_blank_cells str_num (parse_args argv) matched_values mem
  = (mkMem (df_a mem)
           (setitem (df_b mem) (target_b argv)
                    (loc_assign (map (is_blank str_num) cur) cur
                                matched_values)),
     Ok tt).
Proof.
  intros H.
  unfold fill_blank_cells, bind, attr_str, getattr, get_column, set_column,
    bind, frame, store, ret. simpl.
  now rewrite H.
Qed.

(** Lines 80-82 keep a cell that is not blank and fill one that is. *)
Lemma fill_blank_cells_cell argv mem (cur matched_values : Series num) i v m :
  getitem (df_b mem) (target_b argv) = Some cur ->
  nth_error cur i = Some v ->
  nth_error matched_values i = Some m ->
  cell (df_b (fst (fill_blank_cells str_num (parse_args argv)
                                    matched_values mem)))
       (target_b argv) i
  = Some (if is_blank str_num v then m else v).
Proof.
  intros Hc Hv Hm. rewrite (fill_blank_cells_runs _ _ _ _ Hc). simpl.
  unfold cell. rewrite getitem_setitem_same.
  apply loc_assign_nth; auto.
  now rewrite nth_error_map, Hv.
Qed.

Lemma overwrite_cells_runs argv mem (matched_values : Series num) :
  overwrite_cells (parse_args argv) matched_values mem
  = (mkMem (df_a mem) (setitem (df_b mem) (target_b argv) matched_values),
     Ok tt).
Proof. reflexivity. Qed.

(** Lines 83-85 set every cell of the target column. *)
Lemma overwrite_cells_cell argv mem (matched_values : Series num) i :
  cell (df_b (fst (overwrite_cells (parse_args argv) matched_values mem)))
       (target_b argv) i
  = nth_error matched_values i.
Proof.
  rewrite overwrite_cells_runs. simpl.
  unfold cell. now rewrite getitem_setitem_same.
Qed.

(** Lines 87-89 count the looked-up cells that are not null and the rows
    of [df_b]. *)
Lemma match_statistics_runs mem (matched_values : Series num) :
  match_statistics matched_values mem
  = (mem, Ok (mkStats (count_notna matched_values) (nrows (df_b mem)))).
Proof. reflexivity. Qed.

(** The count of line 88 is the number of destination keys that the index
    maps to a cell that is not null. *)
Lemma count_notna_series_map (mapping : Mapping num) keys :
  count_notna (series_map mapping keys)
  = List.length (filter (fun k => match assoc k mapping with
                                  | Some v => notna v
                                  | None => false
                                  end) keys).
Proof.
  unfold count_notna, series_map.
  induction keys as [|k keys IH]; simpl.
  - reflexivity.
  - destruct (assoc k mapping) as [v|]; simpl.
    + destruct (notna v); simpl; now rewrite IH.
    + exact IH.
Qed.

(** Neither branch touches another column or the number of rows. *)
Lemma branches_frame argv mem (matched_values : Series num) c :
  c <> target_b argv ->
  let filled :=
    fst (fill_blank_cells str_num (parse_args argv) matched_values mem) in
  let written :=
    fst (overwrite_cells (parse_args argv) matched_values mem) in
  getitem (df_b filled) c = getitem (df_b mem) c /\
  nrows (df_b filled) = nrows (df_b mem) /\
  getitem (df_b written) c = getitem (df_b mem) c /\
  nrows (df_b written) = nrows (df_b mem).
Proof.
  intros Hc. cbv zeta. rewrite overwrite_cells_runs. simpl.
  rewrite getitem_setitem_other by exact Hc. rewrite nrows_setitem.
  destruct (getitem (df_b mem) (target_b argv)) as [cur|] eqn:Ht.
  - rewrite (fill_blank_cells_runs _ _ _ _ Ht). simpl.
    rewrite getitem_setitem_other by exact Hc. now rewrite nrows_setitem.
  - unfold fill_blank_cells, bind, attr_str, getattr, get_column, bind,
      frame, ret, raise. simpl. now rewrite Ht.
Qed.

(* ================================================================== *)
(** * The claims *)

(** C1, amended. For a source column other than the scratch column
    [_key_norm_] that line 66 writes, the lookup index that lines 65-68
    build from the source sheet maps a normalized key [k] to the
    source-column cell of the first row, in row order, whose key
    normalizes to [k] and whose source cell is not null. The rows before
    it that have the key hold null cells and do not take the entry; the
    rows after it, whatever they hold, do not change it. *)
Theorem mapping_first_non_null_wins argv mem (kcol vcol : Series num) k i v :
  getitem (df_a mem) (key_a argv) = Some kcol ->
  getitem (df_a mem) (source_a argv) = Some vcol ->
  source_a argv <> "_key_norm_" ->
  first_non_null (normalize_key str_num kcol) vcol k i v ->
  exists mem' mapping,
    build_mapping str_num (parse_args argv) mem = (mem', Ok mapping) /\
    assoc k mapping = Some v.
Proof.
  intros Hk Hv Hne Hfirst.
  eexists _, _. split.
  - apply (build_mapping_runs argv mem kcol vcol Hk).
    now rewrite getitem_setitem_other.
  - now apply (assoc_first_non_null _ _ _ i).
Qed.

(** C5 (what the code does). No run of [main] gives statistics: every run
    ends in an exception, [sys.exit] at line 63 or the [AttributeError] of
    line 79, before lines 87-90. *)
Theorem main_reports_no_statistics argv mem :
  exists e, snd (main str_num argv mem) = Raise e.
Proof.
  destruct (main_cases argv mem) as [[msg H]|[kcol [_ H]]];
    rewrite H; simpl; eauto.
Qed.

(** C6. Whatever way a run of [main] ends, the destination frame in memory
    has the rows it had, and every column other than the target column has
    the cells it had, in the same order; the same holds across each of
    the two branches of lines 79-85, from any memory. *)
Theorem destination_frame_kept argv mem (matched_values : Series num) c :
  c <> target_b argv ->
  (nrows (df_b (fst (main str_num argv mem))) = nrows (df_b mem) /\
   getitem (df_b (fst (main str_num argv mem))) c = getitem (df_b mem) c) /\
  (nrows (df_b (fst (fill_blank_cells str_num (parse_args argv)
                                      matched_values mem)))
   = nrows (df_b mem) /\
   getitem (df_b (fst (fill_blank_cells str_num (parse_args argv)
                                        matched_values mem))) c
   = getitem (df_b mem) c) /\
  (nrows (df_b (fst (overwrite_cells (parse_args argv) matched_values mem)))
   = nrows (df_b mem) /\
   getitem (df_b (fst (overwrite_cells (parse_args argv)
                                       matched_values mem))) c
   = getitem (df_b mem) c).
Proof.
  intros Hc.
  destruct (branches_frame argv mem matched_values c Hc)
    as (F1 & F2 & W1 & W2).
  repeat split; auto.
  - destruct (main_cases argv mem) as [[msg H]|[kcol [_ H]]];
      rewrite H; simpl; [reflexivity|].
    destruct (has_column (target_b argv) (df_b mem));
      [reflexivity | apply nrows_setitem].
  - destruct (main_cases argv mem) as [[msg H]|[kcol [_ H]]];
      rewrite H; simpl; [reflexivity|].
    destruct (has_column (target_b argv) (df_b mem));
      [reflexivity | now apply getitem_setitem_other].
Qed.

(** C7, amended. An empty key cell ([NaN]) normalizes to the text [nan],
    not to the empty string: all empty key cells have the same key, which
    is also the key of every text that strips and folds to [nan], and of
    no text that strips to the empty string. *)
Theorem blank_key_is_text_nan :
  normalize_cell str_num VNaN = "nan" /\
  (forall s, Forall (eq VNaN) s ->
             Forall (eq "nan") (normalize_key str_num s)) /\
  (forall t, casefold (strip t) = "nan" ->
             normalize_cell str_num (VStr t) = normalize_cell str_num VNaN) /\
  (forall t, strip t = EmptyString ->
             normalize_cell str_num (VStr t) <> normalize_cell str_num VNaN).
Proof.
  repeat split.
  - intros s H. unfold normalize_key.
    induction H as [|v s <- _ IH]; simpl; constructor; auto.
  - intros t H. unfold normalize_cell. simpl. exact H.
  - intros t H. unfold normalize_cell. simpl. rewrite H. discriminate.
Qed.

(** C9, amended. A run of [main] that finds its three columns sets, in
    the source frame in memory, the scratch column [_key_norm_] to the
    normalized keys of the key column: the column is added after the last
    one, or replaces a column of that name where it stands. A run that
    misses a column leaves the source frame as it was read. Either way the
    rows of the source frame and every other column keep their cells, in
    order, and of the destination frame only the target column can
    change. *)
Theorem source_gains_scratch_column argv mem c c' :
  c <> "_key_norm_" -> c' <> target_b argv ->
  (has_column (key_a argv) (df_a mem) = true ->
   has_column (source_a argv) (df_a mem) = true ->
   has_column (key_b argv) (df_b mem) = true ->
   exists kcol,
     getitem (df_a mem) (key_a argv) = Some kcol /\
     df_a (fst (main str_num argv mem))
     = setitem (df_a mem) "_key_norm_"
               (map VStr (normalize_key str_num kcol)) /\
     getitem (df_a (fst (main str_num argv mem))) "_key_norm_"
     = Some (map VStr (normalize_key str_num kcol)) /\
     columns (df_a (fst (main str_num argv mem)))
     = if has_column "_key_norm_" (df_a mem)
       then columns (df_a mem)
       else (columns (df_a mem) ++ ["_key_norm_"])%list) /\
  (has_column (key_a argv) (df_a mem)
   && has_column (source_a argv) (df_a mem)
   && has_column (key_b argv) (df_b mem) = false ->
   df_a (fst (main str_num argv mem)) = df_a mem) /\
  nrows (df_a (fst (main str_num argv mem))) = nrows (df_a mem) /\
  getitem (df_a (fst (main str_num argv mem))) c = getitem (df_a mem) c /\
  getitem (df_b (fst (main str_num argv mem))) c' = getitem (df_b mem) c'.
Proof.
  intros Hc Hc'. split; [|split].
  - intros Ha Hs Hb.
    destruct (main_reaches_line_79 argv mem Ha Hs Hb) as (kcol & Hk & H).
    exists kcol. rewrite H. simpl. repeat split.
    + exact Hk.
    + apply getitem_setitem_same.
    + apply columns_setitem.
  - intros Hmiss.
    destruct (main_stops_at_line_63 argv mem Hmiss) as [msg H].
    now rewrite H.
  - destruct (main_cases argv mem) as [[msg H]|[kcol [Hk H]]];
      rewrite H; simpl.
    + repeat split; auto.
    + repeat split.
      * apply nrows_setitem.
      * now apply getitem_setitem_other.
      * destruct (has_column (target_b argv) (df_b mem));
          [reflexivity | now apply getitem_setitem_other].
Qed.


End Claims.

(* ================================================================== *)
(** * The claims on the example sheets *)

(** The scenario of the specification, as far as the code runs it: the
    three keys are looked up as [10], [20] and nothing. *)
Example looked_up_cells : looked_up = [int 10; int 20; VNaN].
Proof. reflexivity. Qed.

(** A key given twice in two spellings is one key, and a null cell is
    passed over: the index of [source_dups]. *)
Example index_of_source_dups :
  groupby_first (normalize_key str_int [VStr "X"; VStr " x"; VStr "A"; VNaN])
                [VNaN; int 7; int 1; int 4]
  = [("a", int 1); ("nan", int 4); ("x", int 7)].
Proof. reflexivity. Qed.

(** A missing source key column: the run exits at line 63 and both frames
    are as they were read. *)
Example missing_key_column_exits :
  main str_int argv_bad_key (mkMem source_sheet dest_sheet)
  = (mkMem source_sheet dest_sheet,
     Raise (SystemExit
              "ERROR: Column 'Id' (from key-a) not found in its sheet.")).
Proof. reflexivity. Qed.

(** C1, as stated, fails when the source column is called [_key_norm_]:
    the first row has the key [alice] and the cell [10], and the index
    maps [alice] to the text [alice], the column having been overwritten
    by line 66 before line 68 reads it. *)
Lemma scratch_source_loses_first_cell :
  getitem source_with_scratch (key_a argv_scratch_source)
  = Some [VStr "Alice"; VStr " bob "] /\
  getitem source_with_scratch (source_a argv_scratch_source)
  = Some [int 10; int 20] /\
  first_non_null (normalize_key str_int [VStr "Alice"; VStr " bob "])
                 [int 10; int 20] "alice" 0 (int 10) /\
  exists mem',
    build_mapping str_int (parse_args argv_scratch_source)
                  (mkMem source_with_scratch dest_sheet)
    = (mem', Ok [("alice", VStr "alice"); ("bob", VStr "bob")]) /\
    assoc "alice" [("alice", @VStr Z "alice"); ("bob", VStr "bob")]
    <> Some (int 10).
Proof.
  repeat split; try reflexivity.
  - intros j v' Hj. lia.
  - eexists. split; [vm_compute; reflexivity | discriminate].
Qed.

Lemma mapping_first_non_null_wins_witness :
  exists mem' mapping,
    build_mapping str_int (parse_args argv_overwrite)
                  (mkMem source_dups dest_sheet) = (mem', Ok mapping) /\
    assoc "x" mapping = Some (int 7).
Proof.
  apply (mapping_first_non_null_wins Z str_int argv_overwrite
           (mkMem source_dups dest_sheet)
           [VStr "X"; VStr " x"; VStr "A"; VNaN]
           [VNaN; int 7; int 1; int 4] "x" 1 (int 7)).
  - reflexivity.
  - reflexivity.
  - discriminate.
  - repeat split; try reflexivity.
    intros j v' Hj Hk Hv.
    destruct j as [|j]; [|lia].
    simpl in Hv. injection Hv as <-. reflexivity.
Defined.

Lemma destination_frame_kept_witness :
  getitem (df_b (fst (main str_int argv_overwrite
                           (mkMem source_sheet dest_no_target)))) "Who"
  = getitem dest_no_target "Who".
Proof.
  destruct (destination_frame_kept Z str_int argv_overwrite
              (mkMem source_sheet dest_no_target) looked_up "Who")
    as ((_ & H) & _).
  - discriminate.
  - exact H.
Defined.

(** C7, as stated, fails: the key of an empty cell is not the empty
    string, and is not the key of a cell of white space. *)
Lemma blank_key_is_not_empty :
  normalize_key str_int [VNaN; VStr "  "] = ["nan"; EmptyString] /\
  normalize_cell str_int VNaN <> EmptyString.
Proof. split; [reflexivity | discriminate]. Qed.

Lemma blank_key_is_text_nan_witness :
  normalize_cell str_int (VStr " NaN ") = normalize_cell str_int VNaN /\
  normalize_cell str_int (VStr "  ") <> normalize_cell str_int VNaN.
Proof.
  destruct (blank_key_is_text_nan Z str_int) as (_ & _ & Hnan & Hempty).
  split.
  - apply Hnan. reflexivity.
  - apply Hempty. reflexivity.
Defined.

(** C9, as stated, fails: after the run the source frame has a third
    column. *)
Lemma source_frame_gets_a_column :
  columns (df_a (fst (main str_int argv_overwrite
                           (mkMem source_sheet dest_sheet))))
  = ["Name"; "Score"; "_key_norm_"] /\
  df_a (fst (main str_int argv_overwrite (mkMem source_sheet dest_sheet)))
  <> source_sheet.
Proof.
  split; [reflexivity|].
  vm_compute. discriminate.
Qed.

Lemma source_gains_scratch_column_witness :
  getitem (df_a (fst (main str_int argv_overwrite
                           (mkMem source_sheet dest_sheet)))) "_key_norm_"
  = Some [VStr "alice"; VStr "bob"; VStr "carl"] /\
  columns (df_a (fst (main str_int argv_overwrite
                           (mkMem source_sheet dest_sheet))))
  = ["Name"; "Score"; "_key_norm_"] /\
  getitem (df_a (fst (main str_int argv_overwrite
                           (mkMem source_sheet dest_sheet)))) "Score"
  = getitem source_sheet "Score" /\
  getitem (df_b (fst (main str_int argv_overwrite
                           (mkMem source_sheet dest_sheet)))) "Who"
  = getitem dest_sheet "Who".
Proof.
  destruct (source_gains_scratch_column Z str_int argv_overwrite
              (mkMem source_sheet dest_sheet) "Score" "Who")
    as (Hadd & _ & _ & Ha & Hb).
  - discriminate.
  - discriminate.
  - destruct Hadd as (kcol & Hk & _ & Hcol & Hcols);
      [reflexivity | reflexivity | reflexivity |].
    vm_compute in Hk. injection Hk as <-.
    split; [exact Hcol | split; [exact Hcols | split; [exact Ha | exact Hb]]].
Defined.


(** C2 (what the code does). The three columns are found, the target
    column is missing: the run adds it to the destination frame, all
    [pd.NA], and raises at line 79; the looked-up cells [10], [20] are
    never written. *)
Theorem run_stops_after_creating_target :
  main str_int argv_overwrite (mkMem source_sheet dest_no_target)
  = (mkMem
       (mkDF 3 [ ("Name", [VStr "Alice"; VStr " bob "; VStr "CARL"]);
                 ("Score", [int 10; int 20; int 30]);
                 ("_key_norm_", [VStr "alice"; VStr "bob"; VStr "carl"]) ])
       (mkDF 3 [ ("Who", [VStr "alice"; VStr "Bob"; VStr "dave"]);
                 ("Points", [VNA; VNA; VNA]) ]),
     Raise (AttributeError "only")) /\
  looked_up = [int 10; int 20; VNaN].
Proof. split; reflexivity. Qed.

(** C3 (what the code does). With [--only-fill-empty] the run raises at
    line 79: the empty target cell of the first row, whose key is looked
    up as [10], stays empty. *)
Theorem fill_empty_run_fills_nothing :
  snd (main str_int argv_fill_empty (mkMem source_sheet dest_sheet))
  = Raise (AttributeError "only") /\
  cell (df_b (fst (main str_int argv_fill_empty
                        (mkMem source_sheet dest_sheet)))) "Points" 0
  = Some VNaN /\
  nth_error looked_up 0 = Some (int 10).
Proof. repeat split; reflexivity. Qed.

(** C4 (what the code does). Without the flag the run raises at line 79
    all the same: the second row keeps [5] where [20] is looked up, and
    the third row, whose key is not in the index, keeps [9]. *)
Theorem overwrite_run_writes_nothing :
  snd (main str_int argv_overwrite (mkMem source_sheet dest_sheet))
  = Raise (AttributeError "only") /\
  df_b (fst (main str_int argv_overwrite (mkMem source_sheet dest_sheet)))
  = dest_sheet /\
  getitem dest_sheet "Points" = Some [VNaN; int 5; int 9] /\
  looked_up = [int 10; int 20; VNaN].
Proof. repeat split; reflexivity. Qed.

(** On the example sheets, the first run and a second one on the frame the
    first has left both raise at line 79, the target column as it was
    read. *)
Theorem second_run_raises_like_the_first :
  let once := main str_int argv_overwrite (mkMem source_sheet dest_sheet) in
  let twice := main str_int argv_overwrite
                    (mkMem source_sheet (df_b (fst once))) in
  snd once = Raise (AttributeError "only") /\
  snd twice = Raise (AttributeError "only") /\
  getitem (df_b (fst twice)) "Points" = Some [VNaN; int 5; int 9].
Proof. repeat split; reflexivity. Qed.

(** Lines 65-77 followed by line 85, as they would run without line 79,
    read the keys from the frame they write to: with the key column as
    the target, a second pass looks up the cells the first has written. *)
Example overwrite_onto_key_column_twice :
  let pass :=
    bind (build_mapping str_int (parse_args argv_onto_key)) (fun mapping =>
    bind (lookup_keys str_int (parse_args argv_onto_key) mapping)
         (fun matched_values =>
    bind (ensure_target (parse_args argv_onto_key)) (fun _ =>
    overwrite_cells (parse_args argv_onto_key) matched_values))) in
  let once := fst (pass (mkMem source_chain dest_keys)) in
  let twice := fst (pass (mkMem source_chain (df_b once))) in
  getitem (df_b once) "Who" = Some [VStr "b"] /\
  getitem (df_b twice) "Who" = Some [VStr "c"].
Proof. split; reflexivity. Qed.

(* ================================================================== *)
(** * Further properties of the code *)

(** ** Stripping and folding commute; both are idempotent *)

Lemma casefold_idempotent (s : string) : casefold (casefold s) = casefold s.
Proof.
  induction s as [|c t IH]; simpl.
  - reflexivity.
  - now rewrite casefold_idempotent_char, IH.
Qed.

Lemma lstrip_casefold (s : string) : lstrip (casefold s) = casefold (lstrip s).
Proof.
  induction s as [|c t IH]; simpl.
  - reflexivity.
  - rewrite is_space_casefold_char. now destruct (is_space c).
Qed.

Lemma rstrip_casefold (s : string) : rstrip (casefold s) = casefold (rstrip s).
Proof.
  induction s as [|c t IH]; simpl.
  - reflexivity.
  - rewrite IH, is_space_casefold_char.
    destruct (rstrip t); simpl; [now destruct (is_space c) | reflexivity].
Qed.

Lemma strip_casefold (s : string) : strip (casefold s) = casefold (strip s).
Proof. unfold strip. now rewrite lstrip_casefold, rstrip_casefold. Qed.

Lemma rstrip_cons (c : ascii) (t : string) :
  rstrip (String c t)
  = match rstrip t with
    | EmptyString => if is_space c then EmptyString else String c EmptyString
    | r => String c r
    end.
Proof. reflexivity. Qed.

Lemma rstrip_idempotent (s : string) : rstrip (rstrip s) = rstrip s.
Proof.
  induction s as [|c t IH]; [reflexivity|].
  rewrite (rstrip_cons c t).
  destruct (rstrip t) as [|c' r] eqn:E.
  - destruct (is_space c) eqn:Hc; [reflexivity|].
    rewrite rstrip_cons. simpl. now rewrite Hc.
  - rewrite rstrip_cons. now rewrite IH.
Qed.

Lemma starts_clean_lstrip (s : string) : starts_clean (lstrip s) = true.
Proof.
  induction s as [|c t IH]; simpl; [reflexivity|].
  destruct (is_space c) eqn:Hc; [exact IH | simpl; now rewrite Hc].
Qed.

Lemma lstrip_starts_clean (s : string) :
  starts_clean s = true -> lstrip s = s.
Proof.
  destruct s as [|c t]; simpl; [reflexivity|].
  intros H. apply negb_true_iff in H. now rewrite H.
Qed.

Lemma starts_clean_rstrip (s : string) :
  starts_clean s = true -> starts_clean (rstrip s) = true.
Proof.
  destruct s as [|c t]; [reflexivity|].
  intros H. rewrite rstrip_cons. simpl in H.
  apply negb_true_iff in H. rewrite H.
  destruct (rstrip t); simpl; now rewrite H.
Qed.

Lemma strip_idempotent (s : string) : strip (strip s) = strip s.
Proof.
  unfold strip.
  rewrite (lstrip_starts_clean (rstrip (lstrip s))).
  - apply rstrip_idempotent.
  - apply starts_clean_rstrip, starts_clean_lstrip.
Qed.

Lemma lstrip_all_space (ws : string) :
  all_space ws = true -> lstrip ws = EmptyString.
Proof.
  induction ws as [|c t IH]; simpl; intros H; [reflexivity|].
  apply andb_true_iff in H as [Hc Ht]. rewrite Hc. now apply IH.
Qed.

(** White space on the right of any text is what [strip] removes. *)
Lemma strip_app_space (w r : string) :
  all_space r = true -> strip (w ++ r) = strip w.
Proof.
  intros Hr. unfold strip. induction w as [|c t IH].
  - simpl. now rewrite (lstrip_all_space r Hr).
  - change (String c t ++ r) with (String c (t ++ r)). cbn [lstrip].
    destruct (is_space c); [exact IH|].
    change (String c (t ++ r)) with (String c t ++ r).
    now apply rstrip_app_space.
Qed.

Lemma strip_pad (l w r : string) :
  all_space l = true -> all_space r = true -> strip (l ++ w ++ r) = strip w.
Proof.
  intros Hl Hr. rewrite <- (strip_app_space w r Hr).
  unfold strip. now rewrite (lstrip_app_space l _ Hl).
Qed.

(** ** The suffix of a file name *)

Lemma dot_casefold_char (c : ascii) :
  Ascii.eqb (casefold_char c) "." = Ascii.eqb c ".".
Proof.
  destruct c as [[] [] [] [] [] [] [] []]; reflexivity.
Qed.

Lemma last_dot_suffix_lower (s : string) :
  last_dot_suffix (lower s) = option_map lower (last_dot_suffix s).
Proof.
  unfold lower. induction s as [|c t IH]; simpl.
  - reflexivity.
  - rewrite IH. destruct (last_dot_suffix t); simpl; [reflexivity|].
    rewrite dot_casefold_char. now destruct (Ascii.eqb c ".").
Qed.

Lemma last_dot_suffix_app (t ext : string) :
  last_dot_suffix ext = None ->
  last_dot_suffix (t ++ String "." ext) = Some (String "." ext).
Proof.
  intros H. induction t as [|c t IH]; simpl.
  - now rewrite H.
  - now rewrite IH.
Qed.

Lemma last_dot_suffix_split (t suf : string) :
  last_dot_suffix t = Some suf ->
  exists pre ext, t = pre ++ String "." ext /\ suf = String "." ext.
Proof.
  revert suf. induction t as [|c t IH]; simpl; intros suf H.
  - discriminate.
  - destruct (last_dot_suffix t) as [suf'|] eqn:E.
    + injection H as <-. destruct (IH suf' eq_refl) as (pre & ext & -> & ->).
      now exists (String c pre), ext.
    + destruct (Ascii.eqb c ".") eqn:Hc; [|discriminate].
      apply Ascii.eqb_eq in Hc. subst c. injection H as <-.
      now exists EmptyString, t.
Qed.

(** A text that folds to a word without a dot has no dot. *)
Lemma dotless_of_lower (ext word : string) :
  lower ext = word -> last_dot_suffix word = None ->
  last_dot_suffix ext = None.
Proof.
  intros <- H. rewrite last_dot_suffix_lower in H.
  now destruct (last_dot_suffix ext).
Qed.

Lemma suffix_of_extension (c : ascii) (t ext word : string) :
  lower ext = word -> last_dot_suffix word = None -> word <> EmptyString ->
  lower (suffix (String c t ++ "." ++ ext)) = String "." word.
Proof.
  intros Hw Hdot Hne.
  change (String c t ++ "." ++ ext) with (String c (t ++ String "." ext)).
  unfold suffix.
  rewrite (last_dot_suffix_app t ext (dotless_of_lower ext word Hw Hdot)).
  destruct ext as [|c1 r1].
  - simpl in Hw. congruence.
  - unfold lower in *. simpl in *. now rewrite Hw.
Qed.

(** ** The sorted keys *)




(* ------------------------------------------------------------------ *)
(** ** [pick_engine] *)

(** X1. A file name whose first character is not a dot and whose
    extension is [xlsx] in any letter case is given the engine
    [openpyxl]; with the extension [xls], the engine [xlrd]. *)
Theorem pick_engine_by_extension (c : ascii) (t ext : string) :
  c <> "."%char ->
  (lower ext = "xlsx" ->
   pick_engine (String c t ++ "." ++ ext) = Some "openpyxl") /\
  (lower ext = "xls" ->
   pick_engine (String c t ++ "." ++ ext) = Some "xlrd").
Proof.
  intros _. split; intros H; unfold pick_engine.
  - now rewrite (suffix_of_extension c t ext "xlsx" H).
  - now rewrite (suffix_of_extension c t ext "xls" H).
Qed.

Lemma pick_engine_by_extension_witness :
  pick_engine ("Book" ++ "." ++ "XLSX") = Some "openpyxl" /\
  pick_engine ("Book" ++ "." ++ "Xls") = Some "xlrd".
Proof.
  split.
  - apply (pick_engine_by_extension "B" "ook" "XLSX");
      [discriminate | reflexivity].
  - apply (pick_engine_by_extension "B" "ook" "Xls");
      [discriminate | reflexivity].
Defined.

(** X2. [pick_engine] names an engine only for a file name that has a
    stem, a dot and an extension that folds to [xlsx] or [xls]: a name
    without a dot, a name that is only an extension ([.xlsx]) and a name
    with any other extension are left to pandas. *)
Theorem pick_engine_needs_extension (name e : string) :
  pick_engine name = Some e ->
  exists stem ext,
    name = stem ++ "." ++ ext /\ stem <> EmptyString /\
    ((e = "openpyxl" /\ lower ext = "xlsx") \/
     (e = "xlrd" /\ lower ext = "xls")).
Proof.
  unfold pick_engine. intros H.
  assert (Hsuf : exists stem ext,
             name = stem ++ "." ++ ext /\ stem <> EmptyString /\
             (suffix name = EmptyString \/ suffix name = String "." ext)).
  { destruct name as [|c t].
    - simpl in H. discriminate.
    - unfold suffix.
      destruct (last_dot_suffix t) as [suf|] eqn:E.
      + destruct (last_dot_suffix_split t suf E) as (pre & ext & -> & ->).
        exists (String c pre), ext. repeat split; [discriminate|].
        destruct ext; [now left | now right].
      + unfold suffix in H. rewrite E in H. simpl in H. discriminate. }
  destruct Hsuf as (stem & ext & Hname & Hstem & [Hs|Hs]).
  - rewrite Hs in H. simpl in H. discriminate.
  - exists stem, ext. repeat split; auto.
    rewrite Hs in H. unfold lower in *. simpl in H.
    destruct (String.eqb (casefold ext) "xlsx") eqn:E1.
    + left. apply String.eqb_eq in E1. injection H as <-. now split.
    + destruct (String.eqb (casefold ext) "xls") eqn:E2; [|discriminate].
      right. apply String.eqb_eq in E2. injection H as <-. now split.
Qed.

Lemma pick_engine_needs_extension_witness :
  exists stem ext,
    "data.v2.XLS" = stem ++ "." ++ ext /\ stem <> EmptyString /\
    (("xlrd" = "openpyxl" /\ lower ext = "xlsx") \/
     ("xlrd" = "xlrd" /\ lower ext = "xls")).
Proof.
  apply (pick_engine_needs_extension "data.v2.XLS" "xlrd"). reflexivity.
Defined.

Section Extras.

Variable num : Type.
Variable str_num : num -> string.

Implicit Types (df : DataFrame num) (mem : Mem num) (v : Value num).
Implicit Types (keys : list string) (vals : Series num).

(* ------------------------------------------------------------------ *)
(** ** [normalize_key] *)

(** X3. Two texts that differ only in the case of their letters and in the
    white space around them have the same normalized key. *)
Theorem normalize_ignores_case_and_padding (l w r l' w' r' : string) :
  all_space l = true -> all_space r = true ->
  all_space l' = true -> all_space r' = true ->
  casefold w = casefold w' ->
  normalize_cell str_num (VStr (l ++ w ++ r))
  = normalize_cell str_num (VStr (l' ++ w' ++ r')).
Proof.
  intros Hl Hr Hl' Hr' Hw. unfold normalize_cell. simpl.
  rewrite (strip_pad l w r Hl Hr), (strip_pad l' w' r' Hl' Hr').
  now rewrite <- !strip_casefold, Hw.
Qed.

(** X4. A normalized key is normalized: stripping it, folding it or
    normalizing it again as a text cell gives the key back. So a column of
    normalized keys, such as the scratch column of line 66, normalizes to
    itself. *)
Theorem normalized_key_is_fixed v (series : Series num) :
  strip (normalize_cell str_num v) = normalize_cell str_num v /\
  casefold (normalize_cell str_num v) = normalize_cell str_num v /\
  normalize_key str_num (map VStr (normalize_key str_num series))
  = normalize_key str_num series.
Proof.
  assert (Hfix : forall u : Value num,
             normalize_cell str_num (VStr (normalize_cell str_num u))
             = normalize_cell str_num u).
  { intros u. unfold normalize_cell. simpl.
    now rewrite <- strip_casefold, casefold_idempotent, strip_casefold,
      strip_idempotent. }
  repeat split.
  - unfold normalize_cell. now rewrite <- strip_casefold, strip_idempotent.
  - unfold normalize_cell. apply casefold_idempotent.
  - unfold normalize_key. rewrite !map_map. apply map_ext. exact Hfix.
Qed.

(* ------------------------------------------------------------------ *)
(** ** The lookup index *)






(* ------------------------------------------------------------------ *)
(** ** The column checks and the target column *)

(** X8. The three required columns are checked in the order key-a,
    source-a, key-b: the run exits with the message of the first one that
    is missing, and both frames are as they were read. *)
Theorem main_reports_first_missing_column argv mem :
  (has_column (key_a argv) (df_a mem) = false ->
   main str_num argv mem
   = (mem, Raise (SystemExit (column_error (key_a argv) "key-a")))) /\
  (has_column (key_a argv) (df_a mem) = true ->
   has_column (source_a argv) (df_a mem) = false ->
   main str_num argv mem
   = (mem, Raise (SystemExit (column_error (source_a argv) "source-a")))) /\
  (has_column (key_a argv) (df_a mem) = true ->
   has_column (source_a argv) (df_a mem) = true ->
   has_column (key_b argv) (df_b mem) = false ->
   main str_num argv mem
   = (mem, Raise (SystemExit (column_error (key_b argv) "key-b")))).
Proof.
  repeat split.
  - intros Ha. unfold main. do 3 (erewrite bind_ok by reflexivity).
    erewrite bind_raise; [reflexivity|].
    unfold validate, bind, frame, sys_exit, raise. now rewrite Ha.
  - intros Ha Hs. unfold main. do 3 (erewrite bind_ok by reflexivity).
    erewrite bind_raise; [reflexivity|].
    unfold validate, bind, frame, sys_exit, raise. now rewrite Ha, Hs.
  - intros Ha Hs Hb. unfold main. do 3 (erewrite bind_ok by reflexivity).
    erewrite bind_raise; [reflexivity|].
    unfold validate, bind, frame, sys_exit, raise. now rewrite Ha, Hs, Hb.
Qed.

Lemma has_column_setitem df c (s : Series num) :
  has_column c (setitem df c s) = true.
Proof.
  apply has_column_getitem. exists s. apply getitem_setitem_same.
Qed.

Lemma replace_absent (c : string) (s : Series num)
  (l : list (string * Series num)) :
  existsb (String.eqb c) (map fst l) = false ->
  map (fun p => if String.eqb (fst p) c then (c, s) else p) l = l.
Proof.
  induction l as [|[h b] t IH]; simpl; intros H; [reflexivity|].
  apply orb_false_iff in H as [E H]. rewrite String.eqb_sym in E.
  rewrite E. now rewrite IH.
Qed.

(** Setting a column twice is setting it to the second series. *)
Lemma setitem_setitem df c (s1 s2 : Series num) :
  setitem (setitem df c s1) c s2 = setitem df c s2.
Proof.
  unfold setitem at 1. rewrite has_column_setitem, nrows_setitem.
  unfold setitem. destruct (has_column c df) eqn:E; simpl; f_equal.
  - rewrite map_map. apply map_ext. intros [h b]. simpl.
    destruct (String.eqb h c) eqn:Eh; simpl; [|now rewrite Eh].
    now rewrite String.eqb_refl.
  - rewrite map_app. simpl. rewrite String.eqb_refl.
    now rewrite (replace_absent c s2 (data df) E).
Qed.

(** X9. Lines 74-77 leave a destination frame that has the target column
    as it is; to one that has not they add it as the last column, one
    [pd.NA] per row, the other columns and their order kept. They never
    touch the source frame, and running them again changes nothing. *)
Theorem ensure_target_appends_blank_column argv mem :
  let mem' := fst (ensure_target (parse_args argv) mem) in
  df_a mem' = df_a mem /\
  ensure_target (parse_args argv) mem' = (mem', Ok tt) /\
  (has_column (target_b argv) (df_b mem) = true -> df_b mem' = df_b mem) /\
  (has_column (target_b argv) (df_b mem) = false ->
   columns (df_b mem') = (columns (df_b mem) ++ [target_b argv])%list /\
   getitem (df_b mem') (target_b argv)
   = Some (repeat VNA (nrows (df_b mem))) /\
   forall c, c <> target_b argv ->
             getitem (df_b mem') c = getitem (df_b mem) c).
Proof.
  cbv zeta. rewrite !ensure_target_runs. simpl.
  destruct (has_column (target_b argv) (df_b mem)) eqn:Ht.
  - rewrite Ht. repeat split; auto; discriminate.
  - rewrite has_column_setitem. repeat split; try discriminate.
    + rewrite columns_setitem. now rewrite Ht.
    + apply getitem_setitem_same.
    + intros c Hc. now apply getitem_setitem_other.
Qed.

(* ------------------------------------------------------------------ *)
(** ** Well-formed frames, the statistics and the two policies *)

Lemma length_fill (cur matched_values : Series num) :
  List.length (loc_assign (map (is_blank str_num) cur) cur matched_values)
  = List.length cur.
Proof. apply length_loc_assign. Qed.

(** X10. Frames that have one cell per row in every column keep that
    through every run of [main], and through lines 80-82 and line 85 when
    the looked-up series has one cell per destination row. *)
Theorem frames_stay_well_formed argv mem (matched_values : Series num) :
  well_formed (df_a mem) -> well_formed (df_b mem) ->
  List.length matched_values = nrows (df_b mem) ->
  well_formed (df_a (fst (main str_num argv mem))) /\
  well_formed (df_b (fst (main str_num argv mem))) /\
  well_formed (df_b (fst (fill_blank_cells str_num (parse_args argv)
                                           matched_values mem))) /\
  well_formed (df_b (fst (overwrite_cells (parse_args argv)
                                          matched_values mem))).
Proof.
  intros Wa Wb Hlen.
  destruct (main_keeps_well_formed num str_num argv mem Wa Wb) as [Ma Mb].
  repeat split; auto.
  - destruct (getitem (df_b mem) (target_b argv)) as [cur|] eqn:Ht.
    + rewrite (fill_blank_cells_runs num str_num argv mem cur _ Ht). simpl.
      apply well_formed_setitem; [exact Wb|].
      rewrite length_fill. eapply well_formed_getitem; eauto.
    + unfold fill_blank_cells, bind, attr_str, getattr, get_column, bind,
        frame, ret, raise. simpl. now rewrite Ht.
  - rewrite overwrite_cells_runs. simpl.
    now apply well_formed_setitem.
Qed.

(** X11. On a well-formed destination frame lines 70-72 look up one cell
    per row, and the statistics of lines 87-89 computed from them have a
    match count that is at most the row count. *)
Theorem statistics_bounded argv mem (mapping : Mapping num) :
  well_formed (df_b mem) ->
  has_column (key_b argv) (df_b mem) = true ->
  exists matched_values,
    lookup_keys str_num (parse_args argv) mapping mem
    = (mem, Ok matched_values) /\
    List.length matched_values = nrows (df_b mem) /\
    match_statistics matched_values mem
    = (mem, Ok (mkStats (count_notna matched_values) (nrows (df_b mem)))) /\
    count_notna matched_values <= nrows (df_b mem).
Proof.
  intros Wb Hb.
  destruct (proj1 (has_column_getitem num _ _) Hb) as [kcol Hk].
  assert (Hlen : List.length (series_map mapping (normalize_key str_num kcol))
                 = nrows (df_b mem)).
  { rewrite length_series_map, length_normalize_key.
    eapply well_formed_getitem; eauto. }
  eexists. split; [apply (lookup_keys_runs num str_num argv mem mapping kcol Hk)|].
  repeat split.
  - exact Hlen.
  - rewrite <- Hlen. unfold count_notna. apply filter_length_le.
Qed.

Lemma fill_fixed (cur matched_values : Series num) :
  let filled := loc_assign (map (is_blank str_num) cur) cur matched_values in
  loc_assign (map (is_blank str_num) filled) filled matched_values = filled.
Proof.
  cbv zeta. revert matched_values.
  induction cur as [|o cur IH]; intros [|n new]; simpl; try reflexivity.
  rewrite IH. f_equal.
  destruct (is_blank str_num o) eqn:Eo.
  - now destruct (is_blank str_num n).
  - now rewrite Eo.
Qed.

(** X12. Lines 80-82 are idempotent: filling the blank target cells a
    second time with the same looked-up cells changes nothing, from any
    memory. *)
Theorem fill_blank_cells_idempotent argv mem (matched_values : Series num) :
  fill_blank_cells str_num (parse_args argv) matched_values
    (fst (fill_blank_cells str_num (parse_args argv) matched_values mem))
  = fill_blank_cells str_num (parse_args argv) matched_values mem.
Proof.
  destruct (getitem (df_b mem) (target_b argv)) as [cur|] eqn:Ht.
  - rewrite (fill_blank_cells_runs num str_num argv mem cur _ Ht). simpl.
    erewrite fill_blank_cells_runs by (simpl; apply getitem_setitem_same).
    simpl. now rewrite fill_fixed, setitem_setitem.
  - assert (H : fill_blank_cells str_num (parse_args argv) matched_values mem
                = (mem, Raise (KeyError (target_b argv)))).
    { unfold fill_blank_cells, bind, attr_str, getattr, get_column, bind,
        frame, ret, raise. simpl. now rewrite Ht. }
    rewrite H. simpl. exact H.
Qed.

Lemma fill_all_blank (n : nat) (matched_values : Series num) :
  List.length matched_values = n ->
  loc_assign (map (is_blank str_num) (repeat VNA n)) (repeat VNA n)
             matched_values
  = matched_values.
Proof.
  revert matched_values.
  induction n as [|n IH]; intros [|m new]; simpl; try discriminate.
  - reflexivity.
  - intros [= H]. now rewrite IH.
Qed.

(** X13. On a target column that lines 74-77 have just created the two
    policies are the same: every cell of it is blank, so lines 80-82 fill
    all of them, as line 85 does. *)
Theorem policies_agree_on_new_target argv mem (matched_values : Series num) :
  has_column (target_b argv) (df_b mem) = false ->
  List.length matched_values = nrows (df_b mem) ->
  fill_blank_cells str_num (parse_args argv) matched_values
                   (fst (ensure_target (parse_args argv) mem))
  = overwrite_cells (parse_args argv) matched_values
                    (fst (ensure_target (parse_args argv) mem)).
Proof.
  intros Ht Hlen. rewrite ensure_target_runs, Ht. simpl.
  erewrite fill_blank_cells_runs by (simpl; apply getitem_setitem_same).
  rewrite overwrite_cells_runs. simpl.
  now rewrite (fill_all_blank _ _ Hlen).
Qed.

Lemma loc_assign_same (mask : list bool) (s : Series num) :
  loc_assign mask s s = s.
Proof.
  revert mask. induction s as [|x s IH]; intros [|m mask]; simpl;
    try reflexivity.
  rewrite IH. now destruct m.
Qed.

(** X14. Line 85 absorbs lines 80-82: overwriting after filling, and
    filling after overwriting, with the same looked-up cells, both leave
    the memory that overwriting alone leaves. *)
Theorem overwrite_absorbs_fill argv mem (matched_values : Series num) :
  fst (fill_blank_cells str_num (parse_args argv) matched_values
         (fst (overwrite_cells (parse_args argv) matched_values mem)))
  = fst (overwrite_cells (parse_args argv) matched_values mem) /\
  fst (overwrite_cells (parse_args argv) matched_values
         (fst (fill_blank_cells str_num (parse_args argv)
                                matched_values mem)))
  = fst (overwrite_cells (parse_args argv) matched_values mem).
Proof.
  split.
  - rewrite overwrite_cells_runs. simpl.
    erewrite fill_blank_cells_runs by (simpl; apply getitem_setitem_same).
    simpl. now rewrite loc_assign_same, setitem_setitem.
  - destruct (getitem (df_b mem) (target_b argv)) as [cur|] eqn:Ht.
    + rewrite (fill_blank_cells_runs num str_num argv mem cur _ Ht).
      rewrite !overwrite_cells_runs. simpl. now rewrite setitem_setitem.
    + unfold fill_blank_cells, bind, attr_str, getattr, get_column, bind,
        frame, ret, raise. simpl. now rewrite Ht.
Qed.

(* ------------------------------------------------------------------ *)
(** ** The sheets of the output workbook *)

Lemma assoc_In {A : Type} (k : string) (l : list (string * A)) :
  In k (map fst l) -> exists a, assoc k l = Some a.
Proof.
  intros H. apply assoc_some_iff. apply existsb_exists.
  exists k. split; [exact H | apply String.eqb_refl].
Qed.

Lemma assoc_NoDup {A : Type} (k : string) (a : A) (l : list (string * A)) :
  NoDup (map fst l) -> In (k, a) l -> assoc k l = Some a.
Proof.
  induction l as [|[h b] t IH]; simpl; intros Hnd Hin; [contradiction|].
  inversion Hnd as [|? ? Hout Hnd']; subst.
  destruct Hin as [[= -> ->]|Hin].
  - now rewrite String.eqb_refl.
  - destruct (String.eqb h k) eqn:E.
    + apply String.eqb_eq in E. subst h. exfalso. apply Hout.
      apply in_map_iff. now exists (k, a).
    + now apply IH.
Qed.

(** The test of lines 100-101 for the selectors that the command line
    gives: a name, or the default [0]. *)
Lemma replaces_sheet_named (n : string) (names : list string) (sname : string) :
  replaces_sheet (sheet_val (Some n)) names sname = Some (String.eqb n sname).
Proof.
  unfold replaces_sheet. simpl. now destruct (String.eqb n sname).
Qed.

Lemma replaces_sheet_default (first : string) (rest : list string)
  (sname : string) :
  replaces_sheet (sheet_val None) (first :: rest) sname
  = Some (String.eqb "0" sname || String.eqb sname first).
Proof.
  unfold replaces_sheet.
  change (py_str (sheet_val None)) with (Some "0"). cbv beta iota.
  destruct (String.eqb "0" sname); reflexivity.
Qed.

(** The loop of lines 99-107, when the test is known for each sheet and
    each sheet is read back as it is in the workbook. *)
Lemma copy_sheets_map (sel : PyVal) (wb : Workbook num)
  (merged : DataFrame num) (f : string -> bool)
  (l : list (string * DataFrame num)) :
  (forall p, In p l ->
             replaces_sheet sel (sheet_names wb) (fst p) = Some (f (fst p))) ->
  (forall p, In p l -> assoc (fst p) wb = Some (snd p)) ->
  copy_sheets sel wb merged (map fst l)
  = Some (map (fun p => (fst p, if f (fst p) then merged else snd p)) l).
Proof.
  induction l as [|[name df] l IH]; intros Hf Hwb; simpl.
  - reflexivity.
  - pose proof (Hf (name, df) (or_introl eq_refl)) as Htest.
    pose proof (Hwb (name, df) (or_introl eq_refl)) as Hread.
    simpl in Htest, Hread. rewrite Htest.
    rewrite IH; [|intros p Hp; apply Hf; now right
                 |intros p Hp; apply Hwb; now right].
    destruct (f name); simpl; [reflexivity|].
    now rewrite Hread.
Qed.

Lemma copy_sheets_names (o : option string) (wb : Workbook num)
  (merged : DataFrame num) (snames : list string) :
  incl snames (sheet_names wb) ->
  exists out, copy_sheets (sheet_val o) wb merged snames = Some out /\
              map fst out = snames.
Proof.
  induction snames as [|sname rest IH]; intros Hincl; simpl.
  - now exists [].
  - destruct IH as (out & Hout & Hnames).
    { intros x Hx. apply Hincl. now right. }
    assert (Hin : In sname (sheet_names wb)) by (apply Hincl; now left).
    assert (Htest : exists b,
               replaces_sheet (sheet_val o) (sheet_names wb) sname = Some b).
    { destruct o as [n|].
      - rewrite replaces_sheet_named. eauto.
      - destruct (sheet_names wb) as [|first others] eqn:E; [contradiction|].
        rewrite replaces_sheet_default. eauto. }
    destruct Htest as [b ->]. rewrite Hout. simpl.
    destruct b.
    + eexists. split; [reflexivity|]. simpl. now rewrite Hnames.
    + destruct (assoc_In sname wb Hin) as [df ->].
      eexists. split; [reflexivity|]. simpl. now rewrite Hnames.
Qed.

(** X15. Without [--copy-all-sheets] the output workbook has one sheet,
    the merged frame, named by the selector as it was typed, or [Sheet1]
    when the selector is the default. With it, the output has the sheets
    of file B under their names and in their order, whatever the selector
    is. *)
Theorem write_output_sheets argv (wb : Workbook num) (merged : DataFrame num) :
  (copy_all_sheets argv = false ->
   write_output (parse_args argv) wb merged
   = Some [(match sheet_b argv with Some n => n | None => "Sheet1" end,
            merged)]) /\
  (copy_all_sheets argv = true ->
   exists out,
     write_output (parse_args argv) wb merged = Some out /\
     map fst out = sheet_names wb).
Proof.
  unfold write_output. simpl. split; intros ->; simpl.
  - now destruct (sheet_b argv).
  - apply copy_sheets_names, incl_refl.
Qed.

Lemma write_all_sheets argv (wb : Workbook num) (merged : DataFrame num)
  (f : string -> bool) :
  copy_all_sheets argv = true ->
  NoDup (sheet_names wb) ->
  (forall name, In name (sheet_names wb) ->
     replaces_sheet (sheet_val (sheet_b argv)) (sheet_names wb) name
     = Some (f name)) ->
  write_output (parse_args argv) wb merged
  = Some (map (fun p => (fst p, if f (fst p) then merged else snd p)) wb).
Proof.
  intros Hcopy Hnd Hf. unfold write_output. simpl. rewrite Hcopy. simpl.
  unfold sheet_names. apply copy_sheets_map.
  - intros p Hp. apply Hf. now apply in_map.
  - intros [name df] Hp. simpl. now apply assoc_NoDup.
Qed.

(** X16. With [--copy-all-sheets] and a sheet selector given on the
    command line, the sheet of file B that has the selector as its name
    is replaced by the merged frame and every other sheet is written back
    as it was read. The selector is a name also when it is a number:
    [--sheet-b 1] selects a sheet called [1], not the second sheet. *)
Theorem named_selector_replaces_that_sheet argv (wb : Workbook num)
  (merged : DataFrame num) n i name df :
  copy_all_sheets argv = true -> sheet_b argv = Some n ->
  NoDup (sheet_names wb) ->
  nth_error wb i = Some (name, df) ->
  exists out,
    write_output (parse_args argv) wb merged = Some out /\
    nth_error out i
    = Some (name, if String.eqb n name then merged else df).
Proof.
  intros Hcopy Hsel Hnd Hi.
  eexists. split.
  - apply (write_all_sheets argv wb merged (String.eqb n) Hcopy Hnd).
    intros s _. rewrite Hsel. apply replaces_sheet_named.
  - now rewrite nth_error_map, Hi.
Qed.

(** X17. With [--copy-all-sheets] and the default selector, the first
    sheet of file B is replaced by the merged frame, and so is a sheet
    that is called [0]; every other sheet is written back as it was
    read. *)
Theorem default_selector_replaces_first_and_zero argv (wb : Workbook num)
  (merged : DataFrame num) i name df :
  copy_all_sheets argv = true -> sheet_b argv = None ->
  NoDup (sheet_names wb) ->
  nth_error wb i = Some (name, df) ->
  exists out,
    write_output (parse_args argv) wb merged = Some out /\
    nth_error out i
    = Some (name, if Nat.eqb i 0 || String.eqb name "0"
                  then merged else df).
Proof.
  intros Hcopy Hsel Hnd Hi.
  destruct wb as [|[first df0] rest]; [destruct i; discriminate|].
  eexists. split.
  - apply (write_all_sheets argv _ merged
             (fun s => String.eqb "0" s || String.eqb s first) Hcopy Hnd).
    intros s _. rewrite Hsel. apply replaces_sheet_default.
  - rewrite nth_error_map, Hi. simpl. do 2 f_equal.
    destruct i as [|i]; simpl in Hi |- *.
    + injection Hi as -> _. now rewrite String.eqb_refl, orb_true_r.
    + assert (Hne : String.eqb name first = false).
      { apply String.eqb_neq. intros ->.
        simpl in Hnd. inversion Hnd as [|? ? Hout _]; subst.
        apply Hout. apply in_map_iff. exists (first, df).
        split; [reflexivity | eapply nth_error_In, Hi]. }
      now rewrite Hne, orb_false_r, String.eqb_sym.
Qed.

Lemma first_group_self keys k :
  In k keys -> first (group keys (map (@VStr num) keys) k) = VStr k.
Proof.
  unfold first, group. induction keys as [|h t IH]; simpl; intros H.
  - contradiction.
  - destruct (String.eqb h k) eqn:E; simpl.
    + apply String.eqb_eq in E. now subst.
    + apply String.eqb_neq in E. destruct H as [H|H]; [contradiction|auto].
Qed.

(** X18. A source column that is itself called [_key_norm_] is
    overwritten by line 66 before line 68 reads it: the index then maps
    every key of the source to the key itself, as text, and the cells the
    sheet had in that column are not used. *)
Theorem scratch_named_source_maps_keys_to_themselves argv mem
  (kcol : Series num) k :
  source_a argv = "_key_norm_" ->
  getitem (df_a mem) (key_a argv) = Some kcol ->
  In k (normalize_key str_num kcol) ->
  exists mem' mapping,
    build_mapping str_num (parse_args argv) mem = (mem', Ok mapping) /\
    assoc k mapping = Some (VStr k).
Proof.
  intros Hsrc Hk Hin. eexists _, _. split.
  - apply (build_mapping_runs num str_num argv mem kcol
             (map VStr (normalize_key str_num kcol)) Hk).
    rewrite Hsrc. apply getitem_setitem_same.
  - rewrite (assoc_groupby_first num _ _ k Hin).
    now rewrite first_group_self.
Qed.

End Extras.

(* ================================================================== *)
(** * The further properties on the example sheets *)

Lemma normalize_ignores_case_and_padding_witness :
  normalize_cell str_int (VStr (" " ++ "Bob" ++ "  "))
  = normalize_cell str_int (VStr (EmptyString ++ "bOB" ++ " ")).
Proof.
  apply (normalize_ignores_case_and_padding Z str_int
           " " "Bob" "  " EmptyString "bOB" " "); reflexivity.
Defined.



Lemma main_reports_first_missing_column_witness :
  main str_int argv_bad_key (mkMem source_sheet dest_no_target)
  = (mkMem source_sheet dest_no_target,
     Raise (SystemExit (column_error "Id" "key-a"))).
Proof.
  apply (proj1 (main_reports_first_missing_column Z str_int argv_bad_key
                  (mkMem source_sheet dest_no_target))).
  reflexivity.
Defined.

Lemma ensure_target_appends_blank_column_witness :
  columns (df_b (fst (ensure_target (parse_args argv_overwrite)
                                    (mkMem source_sheet dest_no_target))))
  = ["Who"; "Points"] /\
  getitem (df_b (fst (ensure_target (parse_args argv_overwrite)
                                    (mkMem source_sheet dest_no_target))))
          "Points"
  = Some [VNA; VNA; VNA].
Proof.
  destruct (ensure_target_appends_blank_column Z argv_overwrite
              (mkMem source_sheet dest_no_target))
    as (_ & _ & _ & Hnew).
  destruct Hnew as (Hcols & Hcol & _); [reflexivity|].
  split; [exact Hcols | exact Hcol].
Defined.

Lemma frames_stay_well_formed_witness :
  well_formed (df_a (fst (main str_int argv_overwrite
                               (mkMem source_sheet dest_no_target)))) /\
  well_formed (df_b (fst (main str_int argv_overwrite
                               (mkMem source_sheet dest_no_target)))) /\
  well_formed (df_b (fst (fill_blank_cells str_int
                            (parse_args argv_overwrite) looked_up
                            (mkMem source_sheet dest_no_target)))) /\
  well_formed (df_b (fst (overwrite_cells (parse_args argv_overwrite)
                            looked_up
                            (mkMem source_sheet dest_no_target)))).
Proof.
  apply (frames_stay_well_formed Z str_int argv_overwrite
           (mkMem source_sheet dest_no_target) looked_up).
  - repeat constructor.
  - repeat constructor.
  - reflexivity.
Defined.

Lemma statistics_bounded_witness :
  exists matched_values,
    lookup_keys str_int (parse_args argv_overwrite)
                [("alice", int 10); ("bob", int 20)]
                (mkMem source_sheet dest_sheet)
    = (mkMem source_sheet dest_sheet, Ok matched_values) /\
    List.length matched_values = 3 /\
    match_statistics matched_values (mkMem source_sheet dest_sheet)
    = (mkMem source_sheet dest_sheet,
       Ok (mkStats (count_notna matched_values) 3)) /\
    count_notna matched_values <= 3.
Proof.
  apply (statistics_bounded Z str_int argv_overwrite
           (mkMem source_sheet dest_sheet)
           [("alice", int 10); ("bob", int 20)]).
  - repeat constructor.
  - reflexivity.
Defined.

Lemma policies_agree_on_new_target_witness :
  fill_blank_cells str_int (parse_args argv_overwrite) looked_up
    (fst (ensure_target (parse_args argv_overwrite)
                        (mkMem source_sheet dest_no_target)))
  = overwrite_cells (parse_args argv_overwrite) looked_up
      (fst (ensure_target (parse_args argv_overwrite)
                          (mkMem source_sheet dest_no_target))).
Proof.
  apply (policies_agree_on_new_target Z str_int argv_overwrite
           (mkMem source_sheet dest_no_target) looked_up); reflexivity.
Defined.

Lemma write_output_sheets_witness :
  write_output (parse_args argv_overwrite) three_sheets dest_sheet
  = Some [("Sheet1", dest_sheet)] /\
  exists out,
    write_output (parse_args argv_all_sheets) three_sheets dest_sheet
    = Some out /\
    map fst out = ["People"; "Notes"; "0"].
Proof.
  split.
  - apply (proj1 (write_output_sheets Z argv_overwrite three_sheets
                    dest_sheet)). reflexivity.
  - apply (proj2 (write_output_sheets Z argv_all_sheets three_sheets
                    dest_sheet)). reflexivity.
Defined.

Lemma named_selector_replaces_that_sheet_witness :
  exists out,
    write_output (parse_args argv_all_sheets) three_sheets dest_sheet
    = Some out /\
    nth_error out 1 = Some ("Notes", dest_sheet).
Proof.
  apply (named_selector_replaces_that_sheet Z argv_all_sheets three_sheets
           dest_sheet "Notes" 1 "Notes" dest_keys).
  - reflexivity.
  - reflexivity.
  - repeat (constructor; [simpl; intuition discriminate|]). constructor.
  - reflexivity.
Defined.

Lemma default_selector_replaces_first_and_zero_witness :
  exists out,
    write_output (parse_args argv_all_default) three_sheets source_sheet
    = Some out /\
    nth_error out 2 = Some ("0", source_sheet).
Proof.
  apply (default_selector_replaces_first_and_zero Z argv_all_default
           three_sheets source_sheet 2 "0" dest_no_target).
  - reflexivity.
  - reflexivity.
  - repeat (constructor; [simpl; intuition discriminate|]). constructor.
  - reflexivity.
Defined.

Lemma scratch_named_source_maps_keys_to_themselves_witness :
  exists mem' mapping,
    build_mapping str_int (parse_args argv_scratch_source)
                  (mkMem source_with_scratch dest_sheet)
    = (mem', Ok mapping) /\
    assoc "bob" mapping = Some (VStr "bob").
Proof.
  apply (scratch_named_source_maps_keys_to_themselves Z str_int
           argv_scratch_source (mkMem source_with_scratch dest_sheet)
           [VStr "Alice"; VStr " bob "] "bob").
  - reflexivity.
  - reflexivity.
  - simpl. right. left. reflexivity.
Defined.

(* ================================================================== *)
(** * Running [main] a second time *)

Section Rerun.

Variable num : Type.
Variable str_num : num -> string.

Implicit Types (df : DataFrame num) (mem : Mem num).





End Rerun.
